(** * Meetings dashboard page: field extraction, data fetching and rendering

    Shallow embedding of [src/app/dashboard/meetings/page.tsx].

    The page is TypeScript, but what it computes on is the untyped JSON the
    calendar vendor returns, so the functions are embedded over a small
    model of JavaScript values in which reading a property of [undefined]
    or [null] throws.  The TypeScript interfaces ([When], [Conferencing],
    [NylasEvent]) become records together with a relation saying when a
    JavaScript value inhabits the interface.  The session, the database and
    the vendor API are an environment whose calls may reject; the date
    library formats a number as a time and throws on one no [Date] can
    hold. *)

From Stdlib Require Import ZArith.
From stdpp Require Import base option list strings gmap fin_maps pretty.

#[local] Set Warnings "-register-all".
#[local] Open Scope Z_scope.
#[local] Open Scope string_scope.

(** ** JavaScript values *)

(** Plain data as it comes out of [JSON.parse] or out of the ORM: no
    getters, no proxies, no functions.  Numbers are the integral Unix
    timestamps the page works with; JSON has no NaN. *)
Inductive jsval : Type :=
  | JUndef
  | JNull
  | JBool (b : bool)
  | JNum (z : Z)
  | JStr (s : string)
  | JArr (l : list jsval)
  | JObj (m : gmap string jsval).

(** What a JavaScript evaluation can throw. *)
Inductive exn : Type :=
  | TypeError
  | RangeError
  | Error (message : string)
  | Rejected (reason : string).

Inductive result (A : Type) : Type :=
  | Ok (a : A)
  | Throw (e : exn).
Arguments Ok {A} a.
Arguments Throw {A} e.

Definition rbind {A B} (r : result A) (k : A → result B) : result B :=
  match r with
  | Ok a => k a
  | Throw e => Throw e
  end.

Declare Scope js_scope.
Delimit Scope js_scope with js.
Notation "'let!' x ':=' r 'in' k" := (rbind r (fun x => k))
  (at level 10, x name, r at level 100, k at level 200) : js_scope.
#[local] Open Scope js_scope.

Fixpoint rmapM {A B} (f : A → result B) (l : list A) : result (list B) :=
  match l with
  | [] => Ok []
  | a :: l' =>
      let! b := f a in
      let! bs := rmapM f l' in
      Ok (b :: bs)
  end.

(** [v === undefined || v === null] *)
Definition nullish (v : jsval) : bool :=
  match v with
  | JUndef | JNull => true
  | _ => false
  end.

(** [Boolean(v)]: the values [!v] and [v && ...] and [v || ...] test. *)
Definition truthy (v : jsval) : bool :=
  match v with
  | JUndef | JNull => false
  | JBool b => b
  | JNum z => negb (Z.eqb z 0)
  | JStr s => negb (String.eqb s "")
  | JArr _ | JObj _ => true
  end.

(** The own property [k] of an object, [undefined] when it has none. *)
Definition field (m : gmap string jsval) (k : string) : jsval :=
  default JUndef (m !! k).

(** [v.name].  Throws on [undefined] and [null]; on the other values it
    reads the own property.  None of the names the page reads
    ([start_time], [end_time], [start], [end], [time], [times], [details],
    [url], [title], [participants], [name], [id], [when], [conferencing],
    [data], [user], [grantId], [grantEmail]) is defined on a built-in
    prototype, so the prototype chain contributes [undefined]. *)
Definition member (v : jsval) (name : string) : result jsval :=
  match v with
  | JUndef | JNull => Throw TypeError
  | JObj m => Ok (field m name)
  | JArr l =>
      Ok (if String.eqb name "length" then JNum (Z.of_nat (length l))
          else JUndef)
  | JStr s =>
      Ok (if String.eqb name "length" then JNum (Z.of_nat (String.length s))
          else JUndef)
  | JBool _ | JNum _ => Ok JUndef
  end.

(** [v[i]] for a literal index [i]. *)
Definition index (v : jsval) (i : nat) : result jsval :=
  match v with
  | JUndef | JNull => Throw TypeError
  | JArr l => Ok (default JUndef (l !! i))
  | JStr s =>
      Ok (match String.get i s with
          | Some c => JStr (String c EmptyString)
          | None => JUndef
          end)
  | JObj m => Ok (field m (pretty i))
  | JBool _ | JNum _ => Ok JUndef
  end.

(** [v?.name] *)
Definition opt_member (v : jsval) (name : string) : result jsval :=
  if nullish v then Ok JUndef else member v name.

(** [v?.[i]] *)
Definition opt_index (v : jsval) (i : nat) : result jsval :=
  if nullish v then Ok JUndef else index v i.

(** [a ?? b]: the right operand is evaluated only when the left one is
    [undefined] or [null]. *)
Definition coalesce (a b : result jsval) : result jsval :=
  let! v := a in
  if nullish v then b else Ok v.

Notation "a ?? b" := (coalesce a b)
  (at level 45, left associativity) : js_scope.

(** ** The three extraction functions (lines 51-63) *)

(** [when.start_time ?? when.start ?? when.time
      ?? when.times?.[0]?.start_time ?? null] *)
Definition getStartTime (when : jsval) : result jsval :=
  member when "start_time"
  ?? member when "start"
  ?? member when "time"
  ?? (let! times := member when "times" in
      let! first := opt_index times 0 in
      opt_member first "start_time")
  ?? Ok JNull.

(** [when.end_time ?? when.end ?? when.times?.[0]?.end_time ?? null] *)
Definition getEndTime (when : jsval) : result jsval :=
  member when "end_time"
  ?? member when "end"
  ?? (let! times := member when "times" in
      let! first := opt_index times 0 in
      opt_member first "end_time")
  ?? Ok JNull.

(** [conferencing?.details?.url ?? conferencing?.url ?? null] *)
Definition getMeetingUrl (conferencing : jsval) : result jsval :=
  (let! details := opt_member conferencing "details" in
   opt_member details "url")
  ?? opt_member conferencing "url"
  ?? Ok JNull.

(** ** The interfaces (lines 20-48) *)

(** An element of [When.times]: [{ start_time: number; end_time: number }]. *)
Module TimeSpan.
Record t : Type := Build {
  start_time : Z;
  end_time : Z;
}.
End TimeSpan.

(** [interface When]; an optional member is an [option]. *)
Module When.
Record t : Type := Build {
  start_time : option Z;
  end_time : option Z;
  start : option Z;
  end_ : option Z;
  time : option Z;
  times : option (list TimeSpan.t);
  date : option string;
  dates : option (list string);
}.
End When.

(** [Conferencing.details]: [{ url?: string }]. *)
Module Details.
Record t : Type := Build {
  url : option string;
}.
End Details.

(** [interface Conferencing] *)
Module Conferencing.
Record t : Type := Build {
  details : option Details.t;
  url : option string;
}.
End Conferencing.

(** An element of [NylasEvent.participants]: [{ name: string }]. *)
Module Participant.
Record t : Type := Build {
  name : string;
}.
End Participant.

(** [interface NylasEvent] *)
Module NylasEvent.
Record t : Type := Build {
  id : string;
  when : When.t;
  title : string;
  participants : list Participant.t;
  conferencing : option Conferencing.t;
}.
End NylasEvent.

(** *** When a JavaScript value inhabits an interface

    TypeScript's typing is structural: an object inhabits an interface when
    the listed members have the listed types, whatever else it carries
    (both [When] and [Conferencing] have an index signature for extra
    members).  An optional member may be missing or [undefined]; the
    vendor's JSON may also spell it [null], which [??] and [?.] treat the
    same way, so [null] is accepted as absent too. *)

Definition is_number (v : jsval) (z : Z) : Prop := v = JNum z.
Definition is_string (v : jsval) (s : string) : Prop := v = JStr s.

Definition optional {A} (R : jsval → A → Prop) (v : jsval) (o : option A)
  : Prop :=
  match o with
  | Some a => R v a
  | None => nullish v = true
  end.

Definition array_of {A} (R : jsval → A → Prop) (v : jsval) (l : list A)
  : Prop :=
  ∃ vs, v = JArr vs ∧ Forall2 R vs l.

Definition is_TimeSpan (v : jsval) (s : TimeSpan.t) : Prop :=
  ∃ m, v = JObj m
    ∧ is_number (field m "start_time") (TimeSpan.start_time s)
    ∧ is_number (field m "end_time") (TimeSpan.end_time s).

Definition is_When (v : jsval) (w : When.t) : Prop :=
  ∃ m, v = JObj m
    ∧ optional is_number (field m "start_time") (When.start_time w)
    ∧ optional is_number (field m "end_time") (When.end_time w)
    ∧ optional is_number (field m "start") (When.start w)
    ∧ optional is_number (field m "end") (When.end_ w)
    ∧ optional is_number (field m "time") (When.time w)
    ∧ optional (array_of is_TimeSpan) (field m "times") (When.times w)
    ∧ optional is_string (field m "date") (When.date w)
    ∧ optional (array_of is_string) (field m "dates") (When.dates w).

Definition is_Details (v : jsval) (d : Details.t) : Prop :=
  ∃ m, v = JObj m
    ∧ optional is_string (field m "url") (Details.url d).

Definition is_Conferencing (v : jsval) (c : Conferencing.t) : Prop :=
  ∃ m, v = JObj m
    ∧ optional is_Details (field m "details") (Conferencing.details c)
    ∧ optional is_string (field m "url") (Conferencing.url c).

Definition is_Participant (v : jsval) (p : Participant.t) : Prop :=
  ∃ m, v = JObj m
    ∧ is_string (field m "name") (Participant.name p).

Definition is_NylasEvent (v : jsval) (e : NylasEvent.t) : Prop :=
  ∃ m, v = JObj m
    ∧ is_string (field m "id") (NylasEvent.id e)
    ∧ is_When (field m "when") (NylasEvent.when e)
    ∧ is_string (field m "title") (NylasEvent.title e)
    ∧ array_of is_Participant (field m "participants")
        (NylasEvent.participants e)
    ∧ optional is_Conferencing (field m "conferencing")
        (NylasEvent.conferencing e).

(** *** The canonical object of an interface value

    What [JSON.parse] yields for the payload: a missing member is a missing
    key. *)

Definition set_opt {A} (k : string) (enc : A → jsval) (o : option A)
    (m : gmap string jsval) : gmap string jsval :=
  match o with
  | Some a => <[k := enc a]> m
  | None => m
  end.

Definition TimeSpan_to_js (s : TimeSpan.t) : jsval :=
  JObj (<["start_time" := JNum (TimeSpan.start_time s)]>
        (<["end_time" := JNum (TimeSpan.end_time s)]> ∅)).

Definition When_to_js (w : When.t) : jsval :=
  JObj (set_opt "start_time" JNum (When.start_time w)
       (set_opt "end_time" JNum (When.end_time w)
       (set_opt "start" JNum (When.start w)
       (set_opt "end" JNum (When.end_ w)
       (set_opt "time" JNum (When.time w)
       (set_opt "times" (λ l, JArr (TimeSpan_to_js <$> l)) (When.times w)
       (set_opt "date" JStr (When.date w)
       (set_opt "dates" (λ l, JArr (JStr <$> l)) (When.dates w)
        ∅)))))))).

Definition Details_to_js (d : Details.t) : jsval :=
  JObj (set_opt "url" JStr (Details.url d) ∅).

Definition Conferencing_to_js (c : Conferencing.t) : jsval :=
  JObj (set_opt "details" Details_to_js (Conferencing.details c)
       (set_opt "url" JStr (Conferencing.url c) ∅)).

Definition Participant_to_js (p : Participant.t) : jsval :=
  JObj (<["name" := JStr (Participant.name p)]> ∅).

Definition NylasEvent_to_js (e : NylasEvent.t) : jsval :=
  JObj (<["id" := JStr (NylasEvent.id e)]>
       (<["when" := When_to_js (NylasEvent.when e)]>
       (<["title" := JStr (NylasEvent.title e)]>
       (<["participants" :=
            JArr (Participant_to_js <$> NylasEvent.participants e)]>
       (set_opt "conferencing" Conferencing_to_js
          (NylasEvent.conferencing e) ∅))))).

(** ** What the claims about the extraction say, in the spec's words *)

(** The first present value of a precedence list. *)
Fixpoint first_present {A} (candidates : list (option A)) : option A :=
  match candidates with
  | [] => None
  | Some a :: _ => Some a
  | None :: rest => first_present rest
  end.

(** The first element of [times], when there is one. *)
Definition first_span (w : When.t) : option TimeSpan.t :=
  When.times w ≫= head.

(** start_time, then start, then time, then times[0].start_time. *)
Definition start_precedence (w : When.t) : list (option Z) :=
  [ When.start_time w; When.start w; When.time w;
    TimeSpan.start_time <$> first_span w ].

(** end_time, then end, then times[0].end_time. *)
Definition end_precedence (w : When.t) : list (option Z) :=
  [ When.end_time w; When.end_ w; TimeSpan.end_time <$> first_span w ].

(** details.url, then the top-level url. *)
Definition url_precedence (c : Conferencing.t) : list (option string) :=
  [ Conferencing.details c ≫= Details.url; Conferencing.url c ].

(** A [number | null] and a [string | null] result. *)
Definition number_or_null (o : option Z) : jsval := from_option JNum JNull o.
Definition string_or_null (o : option string) : jsval :=
  from_option JStr JNull o.

(** The evaluation completes with a value instead of throwing. *)
Definition returns {A} (r : result A) : Prop := ∃ a, r = Ok a.

(** ** The outside world: session, database and vendor API *)

(** The three external calls the page makes.  Each is awaited, so each
    either yields a value or rejects, and the rejection propagates. *)
Record Env : Type := {
  (** [auth()] *)
  auth : result jsval;
  (** [prisma.user.findUnique({ where: { id }, select: { grantId: true,
      grantEmail: true } })] as a function of [id] *)
  prisma_user_findUnique : jsval → result jsval;
  (** [nylas.events.list({ identifier, queryParams: { calendarId } })] as a
      function of [identifier] and [calendarId] *)
  nylas_events_list : jsval → jsval → result jsval;
}.

(** The log of external calls, oldest first. *)
Inductive Call : Type :=
  | CallAuth
  | CallFindUnique (userId : jsval)
  | CallEventsList (identifier calendarId : jsval).

(** Computations that read the environment, log their calls and may throw. *)
Definition M (A : Type) : Type := Env → list Call → result A * list Call.

Definition mret {A} (a : A) : M A := λ _ log, (Ok a, log).

Definition mbind_M {A B} (c : M A) (k : A → M B) : M B :=
  λ env log,
    match c env log with
    | (Ok a, log') => k a env log'
    | (Throw e, log') => (Throw e, log')
    end.

Definition throw {A} (e : exn) : M A := λ _ log, (Throw e, log).

Definition lift {A} (r : result A) : M A := λ _ log, (r, log).

Definition call {A} (c : Call) (f : Env → result A) : M A :=
  λ env log, (f env, (log ++ [c])%list).

Notation "'let*' x ':=' c 'in' k" := (mbind_M c (fun x => k))
  (at level 10, x name, c at level 100, k at level 200) : js_scope.

Definition is_events_list (c : Call) : bool :=
  match c with
  | CallEventsList _ _ => true
  | _ => false
  end.

(** The vendor's events API was called somewhere in the log. *)
Definition vendor_called (log : list Call) : bool := existsb is_events_list log.

(** ** getData (lines 65-100) *)

(** [v.map(f)]: only an array has [map]. *)
Definition array_map (v : jsval) (f : jsval → result jsval)
  : result (list jsval) :=
  match v with
  | JArr l => rmapM f l
  | _ => Throw TypeError
  end.

(** [v?.map(f)] *)
Definition opt_array_map (v : jsval) (f : jsval → result jsval)
  : result jsval :=
  if nullish v then Ok JUndef
  else let! l := array_map v f in Ok (JArr l).

(** [{ ...v }]: the own enumerable properties; nothing for [undefined],
    [null], numbers and booleans, the indices for arrays and strings. *)
Definition spread (v : jsval) : gmap string jsval :=
  match v with
  | JObj m => m
  | JArr l => list_to_map (imap (λ i x, (pretty i, x)) l)
  | JStr s =>
      list_to_map
        (imap (λ i c, (pretty i, JStr (String c EmptyString)))
              (String.list_ascii_of_string s))
  | JUndef | JNull | JBool _ | JNum _ => ∅
  end.

(** [(p) => ({ name: p.name ?? "" })] *)
Definition normalizeParticipant (p : jsval) : result jsval :=
  let! name := member p "name" ?? Ok (JStr "") in
  Ok (JObj (<["name" := name]> ∅)).

(** The callback of [response.data.map]:
    [(event) => ({ ...event, title: event.title ?? "",
                   participants: event.participants?.map(...) ?? [] })] *)
Definition normalizeEvent (event : jsval) : result jsval :=
  let rest := spread event in
  let! title := member event "title" ?? Ok (JStr "") in
  let! participants :=
    (let! ps := member event "participants" in
     opt_array_map ps normalizeParticipant)
    ?? Ok (JArr []) in
  Ok (JObj (<["participants" := participants]> (<["title" := title]> rest))).

Definition getData (userId : jsval) : M (list jsval) :=
  let* userData :=
    call (CallFindUnique userId) (λ env, prisma_user_findUnique env userId) in
  if negb (truthy userData) then throw (Error "User not found") else
  let* grantId := lift (member userData "grantId") in
  if negb (truthy grantId) then throw (Error "User grantId not found") else
  let* grantEmail := lift (member userData "grantEmail") in
  if negb (truthy grantEmail) then throw (Error "User grantEmail not found")
  else
  let* response :=
    call (CallEventsList grantId grantEmail)
         (λ env, nylas_events_list env grantId grantEmail) in
  let* data := lift (member response "data") in
  lift (array_map data normalizeEvent).

(** ** Rendering (lines 102-178) *)

(** The value of a JSX attribute: a string literal, an expression, or the
    imported server action. *)
Inductive prop_value : Type :=
  | PStr (s : string)
  | PExpr (v : jsval)
  | PAction (name : string).

(** The element tree the component returns.  [Formatted t p] stands for
    the string the date library yields for the valid Unix time [t] and the
    pattern [p]; which string that is depends on the server's time zone and
    locale. *)
Inductive jsx : Type :=
  | Element (tag : string) (props : list (string * prop_value))
      (children : list jsx)
  | Text (s : string)
  | Expr (v : jsval)
  | Formatted (unixTime : Z) (pattern : string).

(** *** The date library

    [fromUnixTime(t)] is the [Date] of [t * 1000] milliseconds, and a
    [Date] holds at most 8.64e15 milliseconds on either side of the epoch;
    beyond that it is an invalid date, on which [format] throws
    [RangeError("Invalid time value")]. *)
Definition maxUnixTime : Z := 8640000000000.

Definition valid_time (unixTime : Z) : bool :=
  Z.leb (- maxUnixTime) unixTime && Z.leb unixTime maxUnixTime.

(** What the library does with a time that is not a number (it coerces it
    to a number first, and how differs between its versions and, for
    strings, goes through floating point) is not settled by the page: it is
    a parameter of the rendering. *)
Record DateLib : Type := {
  format_coerced : jsval → string → result string;
}.

(** [format(fromUnixTime(unixTime), pattern)] *)
Definition formatUnixTime (lib : DateLib) (unixTime : jsval)
    (pattern : string) : result jsx :=
  match unixTime with
  | JNum z =>
      if valid_time z then Ok (Formatted z pattern) else Throw RangeError
  | _ =>
      let! formatted := format_coerced lib unixTime pattern in
      Ok (Expr (JStr formatted))
  end.

Definition className (c : string) : string * prop_value :=
  ("className", PStr c).

(** [a || b] *)
Definition or_else (a b : result jsval) : result jsval :=
  let! v := a in
  if truthy v then Ok v else b.

(** [{meetingUrl && (<div>...</div>)}] *)
Definition joinLink (meetingUrl : jsval) : jsx :=
  if truthy meetingUrl then
    Element "div" [className "flex items-center mt-1"]
      [ Element "Video" [className "size-4 mr-2 text-primary"] [];
        Element "a"
          [ className "text-xs text-primary underline underline-offset-4";
            ("target", PStr "_blank");
            ("href", PExpr meetingUrl);
            ("rel", PStr "noopener noreferrer") ]
          [ Text "Join Meeting" ] ]
  else Expr meetingUrl.

(** The [<form>] of one booking (lines 132-170), around the formatted date
    [day], start [from] and end [to]. *)
Definition bookingForm (id : jsval) (day from to : jsx)
    (meetingUrl title who : jsval) : jsx :=
  Element "form" [("key", PExpr id); ("action", PAction "cancelMeetingAction")]
    [ Element "input"
        [("type", PStr "hidden"); ("name", PStr "eventId");
         ("value", PExpr id)] [];
      Element "div"
        [className "grid grid-cols-3 justify-between items-center"]
        [ Element "div" []
            [ Element "p" [className "text-muted-foreground text-sm"]
                [ day ];
              Element "p" [className "text-muted-foreground text-xs pt-1"]
                [ from; Text " -"; Expr (JStr " "); to ];
              joinLink meetingUrl ];
          Element "div" [className "flex flex-col items-start"]
            [ Element "h2" [className "text-sm font-medium"] [ Expr title ];
              Element "p" [className "text-sm text-muted-foreground"]
                [ Text "You and "; Expr who ] ];
          Element "SubmitButton"
            [("text", PStr "Cancel Event"); ("variant", PStr "destructive");
             className "w-fit flex ml-auto"] [] ];
      Element "Separator" [className "my-3"] [] ].

(** The callback of [data.map] (lines 124-172).  The children of the form
    are evaluated in document order: the three formatted times, then the
    title, then the participant. *)
Definition renderItem (lib : DateLib) (item : jsval) : result jsx :=
  let! startTime := (let! when := member item "when" in getStartTime when) in
  let! endTime := (let! when := member item "when" in getEndTime when) in
  let! meetingUrl :=
    (let! conferencing := member item "conferencing" in
     getMeetingUrl conferencing) in
  if negb (truthy startTime) || negb (truthy endTime) then Ok (Expr JNull)
  else
  let! id := member item "id" in
  let! day := formatUnixTime lib startTime "EEE, dd MMM" in
  let! from := formatUnixTime lib startTime "hh:mm a" in
  let! to := formatUnixTime lib endTime "hh:mm a" in
  let! title := member item "title" in
  let! who :=
    or_else (let! ps := member item "participants" in
             let! first := index ps 0 in
             opt_member first "name")
            (Ok (JStr "participant")) in
  Ok (bookingForm id day from to meetingUrl title who).

Definition emptyState : jsx :=
  Element "EmptyState"
    [("title", PStr "No meetings found");
     ("description", PStr "You don't have any meetings yet.");
     ("buttonText", PStr "Create a new event type");
     ("href", PStr "/dashboard/new")] [].

Definition bookingsCard (rows : list jsx) : jsx :=
  Element "Card" []
    [ Element "CardHeader" []
        [ Element "CardTitle" [] [ Text "Bookings" ];
          Element "CardDescription" []
            [ Text "See upcoming and past events booked through your event type links." ] ];
      Element "CardContent" [] rows ].

(** What [MeetingsPage] returns for the fetched [data] (lines 106-177). *)
Definition renderPage (lib : DateLib) (data : list jsval) : result jsx :=
  if Nat.eqb (length data) 0 then Ok (Element "Fragment" [] [ emptyState ])
  else
    let! rows := rmapM (renderItem lib) data in
    Ok (Element "Fragment" [] [ bookingsCard rows ]).

Definition MeetingsPage (lib : DateLib) : M jsx :=
  let* session := call CallAuth auth in
  let* userId :=
    lift (let! user := opt_member session "user" in opt_member user "id") in
  let* data := getData userId in
  lift (renderPage lib data).

(** React renders nothing for a [null] child. *)
Definition is_null_row (row : jsx) : bool :=
  match row with
  | Expr JNull => true
  | _ => false
  end.

(** The rows of a rendered page that show on screen. *)
Definition rendered_rows (page : jsx) : list jsx :=
  match page with
  | Element "Fragment" []
      [ Element "Card" [] [ _; Element "CardContent" [] rows ] ] =>
      filter (λ row, is_null_row row = false) rows
  | _ => []
  end.

(** The value of attribute [name]. *)
Definition attribute (name : string) (props : list (string * prop_value))
  : option prop_value :=
  snd <$> List.find (λ p, String.eqb (fst p) name) props.

(** A hidden [<input name=... value=...>] and the value it submits. *)
Definition hidden_input (name : string) (child : jsx) : option jsval :=
  match child with
  | Element "input" props _ =>
      match attribute "type" props, attribute "name" props,
            attribute "value" props with
      | Some (PStr "hidden"), Some (PStr n), Some (PExpr v) =>
          if String.eqb n name then Some v else None
      | _, _, _ => None
      end
  | _ => None
  end.

(** The submit button with the given caption is among the descendants. *)
Fixpoint has_submit (caption : string) (node : jsx) : bool :=
  match node with
  | Element tag props children =>
      (String.eqb tag "SubmitButton"
       && match attribute "text" props with
          | Some (PStr c) => String.eqb c caption
          | _ => false
          end)
      || existsb (has_submit caption) children
  | _ => false
  end.

(** The event id a row's cancel action is bound to: the row is a [<form>]
    whose action is [cancelMeetingAction], which holds a "Cancel Event"
    submit button, and which submits the id as the hidden [eventId]. *)
Definition cancel_target (row : jsx) : option jsval :=
  match row with
  | Element "form" props children =>
      match attribute "action" props with
      | Some (PAction "cancelMeetingAction") =>
          if has_submit "Cancel Event" row
          then head (omap (hidden_input "eventId") children)
          else None
      | _ => None
      end
  | _ => None
  end.

(** ** The payloads and records the page receives *)

(** The row the ORM returns for [select: { grantId, grantEmail }]; both
    columns are nullable. *)
Module UserData.
Record t : Type := Build {
  grantId : option string;
  grantEmail : option string;
}.
End UserData.

Definition is_UserData (v : jsval) (u : UserData.t) : Prop :=
  ∃ m, v = JObj m
    ∧ optional is_string (field m "grantId") (UserData.grantId u)
    ∧ optional is_string (field m "grantEmail") (UserData.grantEmail u).

Definition UserData_to_js (u : UserData.t) : jsval :=
  JObj (<["grantId" := string_or_null (UserData.grantId u)]>
       (<["grantEmail" := string_or_null (UserData.grantEmail u)]> ∅)).

(** A column that [!value] rejects: [null] or the empty string. *)
Definition blank (o : option string) : bool :=
  match o with
  | Some s => String.eqb s ""
  | None => true
  end.

(** A participant as the vendor sends it: [{ name?: string }] (line 96). *)
Module VendorParticipant.
Record t : Type := Build {
  name : option string;
}.
End VendorParticipant.

(** An event as the vendor sends it, as far as the page reads it: [title]
    and [participants] are read with [??] and [?.], so they may be absent. *)
Module VendorEvent.
Record t : Type := Build {
  id : string;
  when : When.t;
  title : option string;
  participants : option (list VendorParticipant.t);
  conferencing : option Conferencing.t;
}.
End VendorEvent.

Definition is_VendorParticipant (v : jsval) (p : VendorParticipant.t) : Prop :=
  ∃ m, v = JObj m
    ∧ optional is_string (field m "name") (VendorParticipant.name p).

Definition is_VendorEvent (v : jsval) (e : VendorEvent.t) : Prop :=
  ∃ m, v = JObj m
    ∧ is_string (field m "id") (VendorEvent.id e)
    ∧ is_When (field m "when") (VendorEvent.when e)
    ∧ optional is_string (field m "title") (VendorEvent.title e)
    ∧ optional (array_of is_VendorParticipant) (field m "participants")
        (VendorEvent.participants e)
    ∧ optional is_Conferencing (field m "conferencing")
        (VendorEvent.conferencing e).

Definition VendorParticipant_to_js (p : VendorParticipant.t) : jsval :=
  JObj (set_opt "name" JStr (VendorParticipant.name p) ∅).

Definition VendorEvent_to_js (e : VendorEvent.t) : jsval :=
  JObj (<["id" := JStr (VendorEvent.id e)]>
       (<["when" := When_to_js (VendorEvent.when e)]>
       (set_opt "title" JStr (VendorEvent.title e)
       (set_opt "participants"
          (λ l, JArr (VendorParticipant_to_js <$> l))
          (VendorEvent.participants e)
       (set_opt "conferencing" Conferencing_to_js
          (VendorEvent.conferencing e) ∅))))).

(** The normalization in the spec's words: an absent title becomes [""], an
    absent participant list becomes [[]], an absent name becomes [""]. *)
Definition normalized_participant (p : VendorParticipant.t) : Participant.t :=
  Participant.Build (default "" (VendorParticipant.name p)).

Definition normalized (e : VendorEvent.t) : NylasEvent.t :=
  {| NylasEvent.id := VendorEvent.id e;
     NylasEvent.when := VendorEvent.when e;
     NylasEvent.title := default "" (VendorEvent.title e);
     NylasEvent.participants :=
       normalized_participant <$> default [] (VendorEvent.participants e);
     NylasEvent.conferencing := VendorEvent.conferencing e |}.

(** ** Start, end, and which events count as upcoming *)

Definition startOf (e : NylasEvent.t) : option Z :=
  first_present (start_precedence (NylasEvent.when e)).

Definition endOf (e : NylasEvent.t) : option Z :=
  first_present (end_precedence (NylasEvent.when e)).

(** A time that passes the test [!t]: set, and not the number 0. *)
Definition usable (t : option Z) : bool :=
  match t with
  | Some z => negb (Z.eqb z 0)
  | None => false
  end.

(** At Unix time [now], the event has yet to start. *)
Definition upcoming (now : Z) (e : NylasEvent.t) : Prop :=
  ∃ s, startOf e = Some s ∧ (now ≤ s)%Z.

(** At Unix time [now], the event is over. *)
Definition past (now : Z) (e : NylasEvent.t) : Prop :=
  ∃ t, endOf e = Some t ∧ (t < now)%Z.

(** The four shapes of the vendor's [when]. *)
Definition no_scalar_times (w : When.t) : Prop :=
  When.start_time w = None ∧ When.end_time w = None
  ∧ When.start w = None ∧ When.end_ w = None.

Definition time_range_shape (w : When.t) (s e : Z) : Prop :=
  When.start_time w = Some s ∧ When.end_time w = Some e.

Definition time_list_shape (w : When.t) (first : TimeSpan.t) : Prop :=
  no_scalar_times w ∧ When.time w = None
  ∧ ∃ rest, When.times w = Some (first :: rest).

Definition single_time_shape (w : When.t) (t : Z) : Prop :=
  no_scalar_times w ∧ When.time w = Some t ∧ When.times w = None.

Definition date_only_shape (w : When.t) : Prop :=
  no_scalar_times w ∧ When.time w = None ∧ When.times w = None
  ∧ (is_Some (When.date w) ∨ is_Some (When.dates w)).

(** The event is left out of the list: its start or its end is missing, or
    is the number 0. *)
Definition skipped (start_ end_ : jsval) : Prop :=
  start_ = JNull ∨ start_ = JNum 0 ∨ end_ = JNull ∨ end_ = JNum 0.

Definition shown (e : NylasEvent.t) : bool :=
  usable (startOf e) && usable (endOf e).

(** The meeting link and the participant label of a booking. *)
Definition meetingUrlOf (e : NylasEvent.t) : option string :=
  NylasEvent.conferencing e ≫= λ c, first_present (url_precedence c).

Definition whoOf (e : NylasEvent.t) : string :=
  match NylasEvent.participants e with
  | p :: _ =>
      if String.eqb (Participant.name p) "" then "participant"
      else Participant.name p
  | [] => "participant"
  end.

(** A time the date library can format, if there is one. *)
Definition in_range (t : option Z) : bool :=
  match t with
  | Some z => valid_time z
  | None => true
  end.

(** The extracted start and end are valid times of a [Date]. *)
Definition formattable (e : NylasEvent.t) : bool :=
  in_range (startOf e) && in_range (endOf e).

(** The event does not stop the page: it is skipped, or its times can be
    formatted. *)
Definition renderable (e : NylasEvent.t) : bool :=
  negb (shown e) || formattable e.

(** The row of a well-typed event that does not stop the page: the booking
    form when the event is shown, [null] when it is skipped. *)
Definition visibleRow (e : NylasEvent.t) : jsx :=
  if shown e then
    bookingForm (JStr (NylasEvent.id e))
      (Formatted (default 0 (startOf e)) "EEE, dd MMM")
      (Formatted (default 0 (startOf e)) "hh:mm a")
      (Formatted (default 0 (endOf e)) "hh:mm a")
      (string_or_null (meetingUrlOf e))
      (JStr (NylasEvent.title e)) (JStr (whoOf e))
  else Expr JNull.

(** What the callback yields for a well-typed event. *)
Definition rowOf (e : NylasEvent.t) : result jsx :=
  if renderable e then Ok (visibleRow e) else Throw RangeError.

(** The message of the guard that stops [getData], if one does. *)
Definition guard_error (userData : option UserData.t) : option string :=
  match userData with
  | None => Some "User not found"
  | Some u =>
      if blank (UserData.grantId u) then Some "User grantId not found"
      else if blank (UserData.grantEmail u)
      then Some "User grantEmail not found"
      else None
  end.

(** What the vendor call and the normalization of its answer yield. *)
Definition fetchEvents (env : Env) (grantId grantEmail : jsval)
  : result (list jsval) :=
  let! response := nylas_events_list env grantId grantEmail in
  let! data := member response "data" in
  array_map data normalizeEvent.

(** An output event of [getData] against the vendor event it comes from:
    [title] is a string, [participants] an array of [{ name: string }], and
    every other member is the vendor's. *)
Definition normalizes (ve : VendorEvent.t) (event out : jsval) : Prop :=
  ∃ m m', event = JObj m ∧ out = JObj m'
    ∧ m' !! "title" = Some (JStr (default "" (VendorEvent.title ve)))
    ∧ m' !! "participants"
      = Some (JArr ((λ p, JObj (<["name" :=
                        JStr (default "" (VendorParticipant.name p))]> ∅))
                    <$> default [] (VendorEvent.participants ve)))
    ∧ ∀ k, k ≠ "title" → k ≠ "participants" → m' !! k = m !! k.

(** ** Sample payloads *)

(** An all-day event: only [date] is set. *)
Definition allDay : When.t :=
  {| When.start_time := None; When.end_time := None; When.start := None;
     When.end_ := None; When.time := None; When.times := None;
     When.date := Some "2025-03-14"; When.dates := None |}.

(** A one-hour slot on 2 January 1970. *)
Definition longAgo : When.t :=
  {| When.start_time := Some 86400; When.end_time := Some 90000;
     When.start := None; When.end_ := None; When.time := None;
     When.times := None; When.date := None; When.dates := None |}.

Definition oldBooking : NylasEvent.t :=
  {| NylasEvent.id := "evt_1970";
     NylasEvent.when := longAgo;
     NylasEvent.title := "Intro call";
     NylasEvent.participants := [ Participant.Build "Ana" ];
     NylasEvent.conferencing := None |}.

Definition oldVendorEvent : VendorEvent.t :=
  {| VendorEvent.id := "evt_1970";
     VendorEvent.when := longAgo;
     VendorEvent.title := None;
     VendorEvent.participants := Some [ VendorParticipant.Build None ];
     VendorEvent.conferencing :=
       Some (Conferencing.Build
               (Some (Details.Build (Some "https://meet.example/abc")))
               None) |}.

Definition session : jsval :=
  JObj (<["user" := JObj (<["id" := JStr "user_1"]> ∅)]> ∅).

Definition connectedUser : UserData.t :=
  UserData.Build (Some "grant_1") (Some "ana@example.com").

(** The user is connected and the vendor answers with one event. *)
Definition calmEnv : Env :=
  {| auth := Ok session;
     prisma_user_findUnique := λ _, Ok (UserData_to_js connectedUser);
     nylas_events_list := λ _ _,
       Ok (JObj (<["data" := JArr [ VendorEvent_to_js oldVendorEvent ]]> ∅))
  |}.

(** The user is connected but the vendor rejects the request, as it does
    for a revoked grant. *)
Definition revokedEnv : Env :=
  {| auth := Ok session;
     prisma_user_findUnique := λ _, Ok (UserData_to_js connectedUser);
     nylas_events_list := λ _ _, Throw (Rejected "401 Unauthorized") |}.

(** The user never connected a calendar. *)
Definition unconnectedEnv : Env :=
  {| auth := Ok session;
     prisma_user_findUnique := λ _,
       Ok (UserData_to_js (UserData.Build None None));
     nylas_events_list := λ _ _, Ok (JObj (<["data" := JArr []]> ∅)) |}.

(** Two bookable slots offered as a list of ranges. *)
Definition twoSlots : When.t :=
  {| When.start_time := None; When.end_time := None; When.start := None;
     When.end_ := None; When.time := None;
     When.times := Some [ TimeSpan.Build 100 200; TimeSpan.Build 300 400 ];
     When.date := None; When.dates := None |}.

(** A reminder: a single point in time. *)
Definition reminder : When.t :=
  {| When.start_time := None; When.end_time := None; When.start := None;
     When.end_ := None; When.time := Some 1700000000; When.times := None;
     When.date := None; When.dates := None |}.

(** No time at all, and an empty list of ranges. *)
Definition noSlots : When.t :=
  {| When.start_time := None; When.end_time := None; When.start := None;
     When.end_ := None; When.time := None; When.times := Some [];
     When.date := None; When.dates := None |}.

(** A conference link given both ways. *)
Definition bothLinks : Conferencing.t :=
  {| Conferencing.details := Some (Details.Build (Some "https://a.example"));
     Conferencing.url := Some "https://b.example" |}.

(** A booking that starts at the Unix epoch itself. *)
Definition epochBooking : NylasEvent.t :=
  {| NylasEvent.id := "evt_epoch";
     NylasEvent.when :=
       {| When.start_time := Some 0; When.end_time := Some 3600;
          When.start := None; When.end_ := None; When.time := None;
          When.times := None; When.date := None; When.dates := None |};
     NylasEvent.title := "Kick-off";
     NylasEvent.participants := [];
     NylasEvent.conferencing := None |}.

(** ** Queries on payloads and on the rendered tree *)

(** All the elements with the given tag, in document order. *)
Fixpoint elements_by_tag (tag : string) (node : jsx) : list jsx :=
  match node with
  | Element t props children =>
      ((if String.eqb t tag then [node] else [])
       ++ flat_map (elements_by_tag tag) children)%list
  | _ => []
  end.

(** The children and the attributes of an element. *)
Definition children_of (node : jsx) : list jsx :=
  match node with
  | Element _ _ children => children
  | _ => []
  end.

Definition props_of (node : jsx) : list (string * prop_value) :=
  match node with
  | Element _ props _ => props
  | _ => []
  end.

(** The "Join Meeting" link to [url] (lines 146-153). *)
Definition joinAnchor (url : jsval) : jsx :=
  Element "a"
    [ className "text-xs text-primary underline underline-offset-4";
      ("target", PStr "_blank");
      ("href", PExpr url);
      ("rel", PStr "noopener noreferrer") ]
    [ Text "Join Meeting" ].

(** The values [normalizeEvent] accepts: anything but [undefined] and
    [null] whose [participants] member is absent or an array without
    [undefined] or [null] elements. *)
Definition normalizable (event : jsval) : bool :=
  negb (nullish event)
  && match member event "participants" with
     | Ok (JArr ps) => forallb (λ p, negb (nullish p)) ps
     | Ok ps => nullish ps
     | Throw _ => false
     end.

(** An object with the single member [name], which is set. *)
Definition only_name (v : jsval) : Prop :=
  ∃ name, v = JObj (<["name" := name]> ∅) ∧ nullish name = false.

(** The three formatting calls of a row, in the order of the document: the
    start as a day, the start as a time, the end as a time. *)
Definition formatTimes (lib : DateLib) (startTime endTime : jsval)
  : result (jsx * jsx * jsx) :=
  let! day := formatUnixTime lib startTime "EEE, dd MMM" in
  let! from := formatUnixTime lib startTime "hh:mm a" in
  let! to := formatUnixTime lib endTime "hh:mm a" in
  Ok (day, from, to).

(** The item has no [when] to extract a time from: it is [undefined] or
    [null] itself, or its [when] member is. *)
Definition timeless (item : jsval) : bool :=
  match member item "when" with
  | Ok when => nullish when
  | Throw _ => true
  end.

(** The evaluation throws nothing but a TypeError. *)
Definition only_TypeError {A} (r : result A) : Prop :=
  ∀ e, r = Throw e → e = TypeError.

(** A vendor answer [getData] can turn into events: its [data] is an array
    and [normalizeEvent] accepts every element. *)
Definition acceptable (response : jsval) : bool :=
  match member response "data" with
  | Ok (JArr events) => forallb normalizable events
  | _ => false
  end.

(** The calls [getData] may leave in the log: the lookup alone, or the
    lookup followed by one vendor call with a truthy grant id and e-mail. *)
Definition getData_calls (userId : jsval) (calls : list Call) : Prop :=
  calls = [ CallFindUnique userId ]
  ∨ ∃ grantId grantEmail,
      calls = [ CallFindUnique userId; CallEventsList grantId grantEmail ]
      ∧ truthy grantId = true ∧ truthy grantEmail = true.

(** The calls [MeetingsPage] may leave in the log: the session alone, or
    the session followed by what [getData] leaves for the session's user
    id. *)
Definition MeetingsPage_calls (calls : list Call) : Prop :=
  calls = [ CallAuth ]
  ∨ ∃ userId rest, calls = CallAuth :: rest ∧ getData_calls userId rest.

(** More sample payloads *)

(** A booking whose [start_time] is 0 although [start] holds a real time. *)
Definition shadowedBooking : NylasEvent.t :=
  {| NylasEvent.id := "evt_shadowed";
     NylasEvent.when :=
       {| When.start_time := Some 0; When.end_time := Some 1700003600;
          When.start := Some 1700000000; When.end_ := None;
          When.time := None; When.times := None; When.date := None;
          When.dates := None |};
     NylasEvent.title := "Review";
     NylasEvent.participants := [ Participant.Build "Ana" ];
     NylasEvent.conferencing := None |}.

(** A booking whose [details.url] is empty although [url] holds a link. *)
Definition blankLinkBooking : NylasEvent.t :=
  {| NylasEvent.id := "evt_blank_link";
     NylasEvent.when := longAgo;
     NylasEvent.title := "Sync";
     NylasEvent.participants := [ Participant.Build "" ];
     NylasEvent.conferencing :=
       Some (Conferencing.Build (Some (Details.Build (Some "")))
               (Some "https://b.example")) |}.

(** A booking with a meeting link. *)
Definition linkedBooking : NylasEvent.t :=
  {| NylasEvent.id := "evt_linked";
     NylasEvent.when := longAgo;
     NylasEvent.title := "Demo";
     NylasEvent.participants := [ Participant.Build "Ana" ];
     NylasEvent.conferencing := Some bothLinks |}.

(** An all-day booking. *)
Definition allDayBooking : NylasEvent.t :=
  {| NylasEvent.id := "evt_all_day";
     NylasEvent.when := allDay;
     NylasEvent.title := "Offsite";
     NylasEvent.participants := [];
     NylasEvent.conferencing := None |}.

(** A vendor event that carries nothing but an id and a time: no title, no
    participants, no conferencing. *)
Definition bareVendorEvent : VendorEvent.t :=
  {| VendorEvent.id := "evt_bare";
     VendorEvent.when := longAgo;
     VendorEvent.title := None;
     VendorEvent.participants := None;
     VendorEvent.conferencing := None |}.

(** A vendor event whose participant carries an e-mail next to the name. *)
Definition richVendorEvent : jsval :=
  JObj (<["id" := JStr "evt_rich"]>
       (<["when" := When_to_js longAgo]>
       (<["participants" :=
            JArr [ JObj (<["name" := JStr "Ana"]>
                         (<["email" := JStr "ana@example.com"]> ∅)) ]]>
        ∅))).

(** A vendor event without [when]. *)
Definition timelessEvent : jsval :=
  JObj (<["id" := JStr "evt_timeless"]> (<["title" := JStr "Lost"]> ∅)).

(** The vendor answers, but without a [data] array. *)
Definition malformedEnv : Env :=
  {| auth := Ok session;
     prisma_user_findUnique := λ _, Ok (UserData_to_js connectedUser);
     nylas_events_list := λ _ _,
       Ok (JObj (<["error" := JStr "rate limited"]> ∅)) |}.

(** Nobody is signed in. *)
Definition anonymousEnv : Env :=
  {| auth := Ok JNull;
     prisma_user_findUnique := λ _, Ok JNull;
     nylas_events_list := λ _ _, Ok (JObj (<["data" := JArr []]> ∅)) |}.

(** The vendor answers with one good event and one [null]. *)
Definition holeEnv : Env :=
  {| auth := Ok session;
     prisma_user_findUnique := λ _, Ok (UserData_to_js connectedUser);
     nylas_events_list := λ _ _,
       Ok (JObj (<["data" :=
                    JArr [ VendorEvent_to_js oldVendorEvent; JNull ]]> ∅)) |}.

(** The database is down. *)
Definition offlineEnv : Env :=
  {| auth := Ok session;
     prisma_user_findUnique := λ _, Throw (Rejected "connection refused");
     nylas_events_list := λ _ _, Ok (JObj (<["data" := JArr []]> ∅)) |}.

(** A date library that refuses every time that is not a number. *)
Definition strictDates : DateLib :=
  {| format_coerced := λ _ _, Throw RangeError |}.

(** A booking dated one second past the last time a [Date] can hold. *)
Definition farBooking : NylasEvent.t :=
  {| NylasEvent.id := "evt_far";
     NylasEvent.when :=
       {| When.start_time := Some 8640000000001;
          When.end_time := Some 8640000003601;
          When.start := None; When.end_ := None; When.time := None;
          When.times := None; When.date := None; When.dates := None |};
     NylasEvent.title := "Heat death";
     NylasEvent.participants := [ Participant.Build "Ana" ];
     NylasEvent.conferencing := None |}.

(** * Properties *)

(** ** Basic facts about the operators *)

Lemma coalesce_absent (v : jsval) (b : result jsval) :
  nullish v = true → Ok v ?? b = b.
Proof. intros H. unfold coalesce. simpl. by rewrite H. Qed.

Lemma coalesce_number (z : Z) (b : result jsval) :
  Ok (JNum z) ?? b = Ok (JNum z).
Proof. reflexivity. Qed.

Lemma optional_number_inv (v : jsval) (o : option Z) :
  optional is_number v o →
  (∃ z, o = Some z ∧ v = JNum z) ∨ (o = None ∧ nullish v = true).
Proof. destruct o as [z|]; simpl; [left; eauto | right; auto]. Qed.

Lemma optional_string_inv (v : jsval) (o : option string) :
  optional is_string v o →
  (∃ s, o = Some s ∧ v = JStr s) ∨ (o = None ∧ nullish v = true).
Proof. destruct o as [s|]; simpl; [left; eauto | right; auto]. Qed.

(** [?.] applied to an absent value stays absent. *)
Lemma opt_member_absent (v : jsval) (name : string) :
  nullish v = true → opt_member v name = Ok JUndef.
Proof. intros H. unfold opt_member. by rewrite H. Qed.

Lemma opt_index_absent (v : jsval) (i : nat) :
  nullish v = true → opt_index v i = Ok JUndef.
Proof. intros H. unfold opt_index. by rewrite H. Qed.

(** [times?.[0]?.start_time] and [times?.[0]?.end_time] on a well-typed
    [times] member. *)
Lemma first_span_start (t : jsval) (w : When.t) :
  optional (array_of is_TimeSpan) t (When.times w) →
  ∃ r, (let! first := opt_index t 0 in opt_member first "start_time") = Ok r
       ∧ Ok r ?? Ok JNull
         = Ok (number_or_null (TimeSpan.start_time <$> first_span w)).
Proof.
  unfold first_span. destruct (When.times w) as [spans|]; simpl.
  - intros (vs & -> & Hall). destruct Hall as [|v s vs spans Hv Hall]; simpl.
    + by exists JUndef.
    + destruct Hv as (m & -> & Hs & _). simpl.
      exists (field m "start_time"). split; [reflexivity|].
      red in Hs. by rewrite Hs.
  - intros Hnull. rewrite opt_index_absent by done. simpl.
    by exists JUndef.
Qed.

Lemma first_span_end (t : jsval) (w : When.t) :
  optional (array_of is_TimeSpan) t (When.times w) →
  ∃ r, (let! first := opt_index t 0 in opt_member first "end_time") = Ok r
       ∧ Ok r ?? Ok JNull
         = Ok (number_or_null (TimeSpan.end_time <$> first_span w)).
Proof.
  unfold first_span. destruct (When.times w) as [spans|]; simpl.
  - intros (vs & -> & Hall). destruct Hall as [|v s vs spans Hv Hall]; simpl.
    + by exists JUndef.
    + destruct Hv as (m & -> & _ & He). simpl.
      exists (field m "end_time"). split; [reflexivity|].
      red in He. by rewrite He.
  - intros Hnull. rewrite opt_index_absent by done. simpl.
    by exists JUndef.
Qed.

(** Rewrites one link of a [??] chain according to whether the member is
    set. *)
Ltac coalesce_step H :=
  apply optional_number_inv in H;
  destruct H as [(? & -> & ->) | (-> & H)];
  [ rewrite ?coalesce_number; reflexivity
  | rewrite (coalesce_absent _ _ H); cbn [first_present] ].

(** The start and end a well-typed [when] yields. *)
Lemma getStartTime_typed (v : jsval) (w : When.t) :
  is_When v w →
  getStartTime v = Ok (number_or_null (first_present (start_precedence w))).
Proof.
  intros (m & -> & Hst & _ & Hs & _ & Ht & Hts & _).
  unfold getStartTime, start_precedence. cbn [member rbind].
  destruct (first_span_start _ _ Hts) as (r & -> & Hr).
  coalesce_step Hst. coalesce_step Hs. coalesce_step Ht.
  rewrite Hr. by destruct (first_span w).
Qed.

Lemma getEndTime_typed (v : jsval) (w : When.t) :
  is_When v w →
  getEndTime v = Ok (number_or_null (first_present (end_precedence w))).
Proof.
  intros (m & -> & _ & Het & _ & He & _ & Hts & _).
  unfold getEndTime, end_precedence. cbn [member rbind].
  destruct (first_span_end _ _ Hts) as (r & -> & Hr).
  coalesce_step Het. coalesce_step He.
  rewrite Hr. by destruct (first_span w).
Qed.

(** ** The canonical objects inhabit their interfaces *)

Lemma field_insert_eq (k : string) (x : jsval) (m : gmap string jsval) :
  field (<[k := x]> m) k = x.
Proof. unfold field. by rewrite lookup_insert_eq. Qed.

Lemma field_insert_ne (k k' : string) (x : jsval) (m : gmap string jsval) :
  k ≠ k' → field (<[k := x]> m) k' = field m k'.
Proof. intros H. unfold field. by rewrite lookup_insert_ne. Qed.

Lemma field_empty (k : string) : field ∅ k = JUndef.
Proof. unfold field. by rewrite lookup_empty. Qed.

Lemma field_set_opt_ne {A} (k k' : string) (enc : A → jsval) (o : option A)
    (m : gmap string jsval) :
  k ≠ k' → field (set_opt k enc o m) k' = field m k'.
Proof. intros H. destruct o; simpl; [by apply field_insert_ne | done]. Qed.

Lemma optional_set_opt {A} (R : jsval → A → Prop) (k : string)
    (enc : A → jsval) (o : option A) (m : gmap string jsval) :
  (∀ a, R (enc a) a) → nullish (field m k) = true →
  optional R (field (set_opt k enc o m) k) o.
Proof.
  intros Henc Hm. destruct o as [a|]; simpl; [|done].
  rewrite field_insert_eq. apply Henc.
Qed.

Lemma array_of_fmap {A} (R : jsval → A → Prop) (enc : A → jsval)
    (l : list A) :
  (∀ a, R (enc a) a) → array_of R (JArr (enc <$> l)) l.
Proof.
  intros Henc. exists (enc <$> l). split; [done|].
  induction l as [|a l IH]; simpl; constructor; auto.
Qed.

(** Reads a member of a canonical object: skip the other keys, then either
    hit the key or fall off the end. *)
Ltac read_field :=
  repeat first
    [ rewrite field_insert_eq
    | rewrite field_insert_ne by done
    | rewrite field_set_opt_ne by done
    | rewrite field_empty ].

Lemma TimeSpan_to_js_typed (s : TimeSpan.t) : is_TimeSpan (TimeSpan_to_js s) s.
Proof.
  eexists. split; [reflexivity|]. unfold is_number.
  split; read_field; reflexivity.
Qed.

Lemma When_to_js_typed (w : When.t) : is_When (When_to_js w) w.
Proof.
  eexists. split; [reflexivity|].
  repeat split; read_field; apply optional_set_opt;
    try (read_field; reflexivity); try done.
  - intros l. apply array_of_fmap, TimeSpan_to_js_typed.
  - intros l. by apply array_of_fmap.
Qed.

Lemma Details_to_js_typed (d : Details.t) : is_Details (Details_to_js d) d.
Proof.
  eexists. split; [reflexivity|].
  apply optional_set_opt; [done | read_field; reflexivity].
Qed.

Lemma Conferencing_to_js_typed (c : Conferencing.t) :
  is_Conferencing (Conferencing_to_js c) c.
Proof.
  eexists. split; [reflexivity|].
  split; read_field; apply optional_set_opt;
    try (read_field; reflexivity); try done.
  apply Details_to_js_typed.
Qed.

Lemma Participant_to_js_typed (p : Participant.t) :
  is_Participant (Participant_to_js p) p.
Proof.
  eexists. split; [reflexivity|]. unfold is_string. by read_field.
Qed.

Lemma NylasEvent_to_js_typed (e : NylasEvent.t) :
  is_NylasEvent (NylasEvent_to_js e) e.
Proof.
  eexists. split; [reflexivity|].
  repeat split; unfold is_string; read_field; try reflexivity.
  - apply When_to_js_typed.
  - apply array_of_fmap, Participant_to_js_typed.
  - apply optional_set_opt; [|read_field; reflexivity].
    apply Conferencing_to_js_typed.
Qed.

Lemma VendorParticipant_to_js_typed (p : VendorParticipant.t) :
  is_VendorParticipant (VendorParticipant_to_js p) p.
Proof.
  eexists. split; [reflexivity|].
  apply optional_set_opt; [done | read_field; reflexivity].
Qed.

Lemma VendorEvent_to_js_typed (e : VendorEvent.t) :
  is_VendorEvent (VendorEvent_to_js e) e.
Proof.
  eexists. split; [reflexivity|].
  repeat split; unfold is_string; read_field; try reflexivity.
  - apply When_to_js_typed.
  - apply optional_set_opt; [done | read_field; reflexivity].
  - apply optional_set_opt; [|read_field; reflexivity].
    intros l. apply array_of_fmap, VendorParticipant_to_js_typed.
  - apply optional_set_opt; [|read_field; reflexivity].
    apply Conferencing_to_js_typed.
Qed.

Lemma UserData_to_js_typed (u : UserData.t) : is_UserData (UserData_to_js u) u.
Proof.
  eexists. split; [reflexivity|].
  split; read_field; by destruct u as [[?|] [?|]].
Qed.

(** ** The extraction functions *)

Lemma first_present_None {A} (l : list (option A)) :
  first_present l = None ↔ Forall (λ c, c = None) l.
Proof.
  induction l as [|[a|] l IH]; simpl.
  - split; [constructor | done].
  - split; [done | by inversion 1].
  - rewrite IH. split; [by constructor | by inversion 1].
Qed.

(** [first_present] picks the leftmost candidate that is set. *)
Lemma first_present_Some {A} (l : list (option A)) (a : A) :
  first_present l = Some a ↔
  ∃ i, l !! i = Some (Some a) ∧ ∀ j, (j < i)%nat → l !! j = Some None.
Proof.
  induction l as [|[b|] l IH]; simpl.
  - split; [done | by intros (i & Hi & _)].
  - split.
    + intros [= ->]. exists 0%nat. split; [done | lia].
    + intros ([|i] & Hi & Hlt); simpl in Hi; [congruence|].
      specialize (Hlt 0%nat ltac:(lia)). simpl in Hlt. congruence.
  - rewrite IH. split.
    + intros (i & Hi & Hlt). exists (S i). split; [done|].
      intros [|j] Hj; simpl; [done | apply Hlt; lia].
    + intros ([|i] & Hi & Hlt); simpl in Hi; [congruence|].
      exists i. split; [done|]. intros j Hj. apply (Hlt (S j)). lia.
Qed.

Lemma number_or_null_is_null (o : option Z) :
  number_or_null o = JNull ↔ o = None.
Proof. destruct o; simpl; split; congruence. Qed.

(** C1: for every [When] payload, [getStartTime] returns the first present
    value in the order start_time, start, time, times[0].start_time, and
    [null] exactly when none of them is present. *)
Theorem getStartTime_precedence (v : jsval) (w : When.t) :
  is_When v w →
  getStartTime v = Ok (number_or_null (first_present (start_precedence w)))
  ∧ (getStartTime v = Ok JNull ↔ Forall (λ c, c = None) (start_precedence w)).
Proof.
  intros Hw. rewrite (getStartTime_typed v w Hw). split; [done|].
  rewrite <- first_present_None, <- number_or_null_is_null.
  split; congruence.
Qed.

Lemma getStartTime_precedence_witness :
  is_When (When_to_js twoSlots) twoSlots
  ∧ getStartTime (When_to_js twoSlots) = Ok (JNum 100).
Proof.
  split; [apply When_to_js_typed|].
  exact (proj1 (getStartTime_precedence _ _ (When_to_js_typed twoSlots))).
Defined.

(** C2: for every [When] payload, [getEndTime] returns the first present
    value in the order end_time, end, times[0].end_time, and [null] exactly
    when none of them is present; the single [time] member is no fallback:
    a payload that carries only [time] has a start and a [null] end. *)
Theorem getEndTime_precedence (v : jsval) (w : When.t) :
  is_When v w →
  getEndTime v = Ok (number_or_null (first_present (end_precedence w)))
  ∧ (getEndTime v = Ok JNull ↔ Forall (λ c, c = None) (end_precedence w))
  ∧ (∀ t, single_time_shape w t →
          getStartTime v = Ok (JNum t) ∧ getEndTime v = Ok JNull).
Proof.
  intros Hw. rewrite (getEndTime_typed v w Hw), (getStartTime_typed v w Hw).
  split; [done|]. split.
  - rewrite <- first_present_None, <- number_or_null_is_null.
    split; congruence.
  - intros t ((Hst & Het & Hs & He) & Ht & Hts).
    unfold start_precedence, end_precedence, first_span.
    by rewrite Hst, Het, Hs, He, Ht, Hts.
Qed.

Lemma getEndTime_precedence_witness :
  is_When (When_to_js reminder) reminder
  ∧ getEndTime (When_to_js reminder) = Ok JNull.
Proof.
  split; [apply When_to_js_typed|].
  exact (proj1 (getEndTime_precedence _ _ (When_to_js_typed reminder))).
Defined.

(** The meeting URL a well-typed, possibly absent, [conferencing] yields. *)
Lemma getMeetingUrl_typed (c : jsval) (oc : option Conferencing.t) :
  optional is_Conferencing c oc →
  getMeetingUrl c
  = Ok (string_or_null (oc ≫= λ conf, first_present (url_precedence conf))).
Proof.
  unfold getMeetingUrl. destruct oc as [conf|]; simpl.
  - intros (m & -> & Hd & Hu). cbn [opt_member nullish member rbind].
    unfold url_precedence.
    apply optional_string_inv in Hu.
    destruct (Conferencing.details conf) as [d|]; simpl in Hd |- *.
    + destruct Hd as (m' & -> & Hdu). cbn [opt_member nullish member].
      apply optional_string_inv in Hdu.
      destruct Hdu as [(u & -> & ->) | (-> & Hdu)]; [done|].
      rewrite (coalesce_absent _ _ Hdu).
      destruct Hu as [(u & -> & ->) | (-> & Hu)]; [done|].
      by rewrite (coalesce_absent _ _ Hu).
    + rewrite (opt_member_absent _ _ Hd), (coalesce_absent JUndef) by done.
      destruct Hu as [(u & -> & ->) | (-> & Hu)]; [done|].
      by rewrite (coalesce_absent _ _ Hu).
  - intros Hc. rewrite !(opt_member_absent c) by done. done.
Qed.

(** C5: for every [Conferencing] payload, [getMeetingUrl] returns
    details.url when present, otherwise the top-level url when present,
    otherwise [null]; for an absent argument it returns [null]. *)
Theorem getMeetingUrl_precedence (c : jsval) (oc : option Conferencing.t) :
  optional is_Conferencing c oc →
  getMeetingUrl c
  = Ok match oc with
       | None => JNull
       | Some conf =>
           match Conferencing.details conf ≫= Details.url with
           | Some url => JStr url
           | None =>
               match Conferencing.url conf with
               | Some url => JStr url
               | None => JNull
               end
           end
       end.
Proof.
  intros Hc. rewrite (getMeetingUrl_typed c oc Hc).
  destruct oc as [conf|]; [|done]. simpl. unfold url_precedence. simpl.
  destruct (Conferencing.details conf ≫= Details.url); [done|].
  by destruct (Conferencing.url conf).
Qed.

Lemma getMeetingUrl_precedence_witness :
  optional is_Conferencing (Conferencing_to_js bothLinks) (Some bothLinks)
  ∧ getMeetingUrl (Conferencing_to_js bothLinks)
    = Ok (JStr "https://a.example").
Proof.
  split; [apply Conferencing_to_js_typed|].
  exact (getMeetingUrl_precedence _ (Some bothLinks)
           (Conferencing_to_js_typed bothLinks)).
Defined.

(** *** Null safety *)

Lemma member_returns (v : jsval) (name : string) :
  nullish v = false → returns (member v name).
Proof. destruct v; simpl; intros H; try discriminate; by eexists. Qed.

Lemma index_returns (v : jsval) (i : nat) :
  nullish v = false → returns (index v i).
Proof. destruct v; simpl; intros H; try discriminate; by eexists. Qed.

Lemma opt_member_returns (v : jsval) (name : string) :
  returns (opt_member v name).
Proof.
  unfold opt_member. destruct (nullish v) eqn:H; [by eexists|].
  by apply member_returns.
Qed.

Lemma opt_index_returns (v : jsval) (i : nat) : returns (opt_index v i).
Proof.
  unfold opt_index. destruct (nullish v) eqn:H; [by eexists|].
  by apply index_returns.
Qed.

Lemma coalesce_returns (a b : result jsval) :
  returns a → returns b → returns (a ?? b).
Proof.
  intros [x ->] Hb. unfold coalesce. simpl. destruct (nullish x); [done|].
  by eexists.
Qed.

Lemma rbind_returns {A B} (r : result A) (k : A → result B) :
  returns r → (∀ a, returns (k a)) → returns (rbind r k).
Proof. intros [a ->] Hk. apply Hk. Qed.

Lemma Ok_returns {A} (a : A) : returns (Ok a).
Proof. by eexists. Qed.

(** On any value that is not [undefined] or [null], whatever its members
    hold, the two time extractions complete; [getMeetingUrl] completes on
    every value. *)
Lemma getStartTime_returns (when : jsval) :
  nullish when = false → returns (getStartTime when).
Proof.
  intros H. unfold getStartTime.
  repeat apply coalesce_returns;
    auto using member_returns, Ok_returns.
  apply rbind_returns; [by apply member_returns|]. intros times.
  apply rbind_returns; [apply opt_index_returns|]. intros first.
  apply opt_member_returns.
Qed.

Lemma getEndTime_returns (when : jsval) :
  nullish when = false → returns (getEndTime when).
Proof.
  intros H. unfold getEndTime.
  repeat apply coalesce_returns;
    auto using member_returns, Ok_returns.
  apply rbind_returns; [by apply member_returns|]. intros times.
  apply rbind_returns; [apply opt_index_returns|]. intros first.
  apply opt_member_returns.
Qed.

Lemma getMeetingUrl_returns (conferencing : jsval) :
  returns (getMeetingUrl conferencing).
Proof.
  unfold getMeetingUrl.
  repeat apply coalesce_returns;
    auto using opt_member_returns, Ok_returns.
  apply rbind_returns; [apply opt_member_returns|]. intros details.
  apply opt_member_returns.
Qed.

(** C4: the extraction is null-safe and total: for every [When] (also one
    with no member set or an empty [times]) and every, possibly absent,
    [Conferencing], the three functions return a number or [null], a number
    or [null], and a string or [null]; none of them throws. *)
Theorem extraction_total (when : jsval) (w : When.t) (conferencing : jsval)
    (oc : option Conferencing.t) :
  is_When when w →
  optional is_Conferencing conferencing oc →
  (∃ o, getStartTime when = Ok (number_or_null o))
  ∧ (∃ o, getEndTime when = Ok (number_or_null o))
  ∧ (∃ o, getMeetingUrl conferencing = Ok (string_or_null o)).
Proof.
  intros Hw Hc. repeat split; eexists.
  - by apply getStartTime_typed.
  - by apply getEndTime_typed.
  - by apply getMeetingUrl_typed.
Qed.

Lemma extraction_total_witness :
  is_When (When_to_js noSlots) noSlots
  ∧ optional is_Conferencing JUndef None
  ∧ (∃ o, getStartTime (When_to_js noSlots) = Ok (number_or_null o))
  ∧ (∃ o, getEndTime (When_to_js noSlots) = Ok (number_or_null o))
  ∧ (∃ o, getMeetingUrl JUndef = Ok (string_or_null o)).
Proof.
  split; [apply When_to_js_typed|]. split; [reflexivity|].
  exact (extraction_total (When_to_js noSlots) noSlots JUndef None
           (When_to_js_typed noSlots) eq_refl).
Defined.

(** *** The shapes of [when] *)

(** The claim that a date-only payload still yields a non-null result fails:
    for an all-day event both extractions return [null]. *)
Lemma date_only_yields_null :
  date_only_shape allDay
  ∧ is_When (When_to_js allDay) allDay
  ∧ getStartTime (When_to_js allDay) = Ok JNull
  ∧ getEndTime (When_to_js allDay) = Ok JNull.
Proof.
  split; [|split; [apply When_to_js_typed | split; reflexivity]].
  repeat split; try reflexivity. left. by eexists.
Qed.

(** C3 (amended): the normalization turns a time range and a non-empty list
    of time ranges into a start and an end; a single time gives a start but
    a [null] end; a date-only payload gives [null] for both. *)
Theorem when_shapes (v : jsval) (w : When.t) :
  is_When v w →
  (∀ s e, time_range_shape w s e →
          getStartTime v = Ok (JNum s) ∧ getEndTime v = Ok (JNum e))
  ∧ (∀ first, time_list_shape w first →
          getStartTime v = Ok (JNum (TimeSpan.start_time first))
          ∧ getEndTime v = Ok (JNum (TimeSpan.end_time first)))
  ∧ (∀ t, single_time_shape w t →
          getStartTime v = Ok (JNum t) ∧ getEndTime v = Ok JNull)
  ∧ (date_only_shape w →
          getStartTime v = Ok JNull ∧ getEndTime v = Ok JNull).
Proof.
  intros Hw. rewrite (getEndTime_typed v w Hw), (getStartTime_typed v w Hw).
  unfold start_precedence, end_precedence, first_span.
  split; [|split; [|split]].
  - by intros s e [-> ->].
  - by intros first ((-> & -> & -> & ->) & -> & rest & ->).
  - by intros t ((-> & -> & -> & ->) & -> & ->).
  - by intros ((-> & -> & -> & ->) & -> & -> & _).
Qed.

Lemma when_shapes_witness :
  is_When (When_to_js allDay) allDay
  ∧ date_only_shape allDay
  ∧ getStartTime (When_to_js allDay) = Ok JNull
  ∧ getEndTime (When_to_js allDay) = Ok JNull.
Proof.
  split; [apply When_to_js_typed|].
  assert (Hshape : date_only_shape allDay).
  { repeat split; try reflexivity. left. by eexists. }
  split; [exact Hshape|].
  exact (proj2 (proj2 (proj2
           (when_shapes _ _ (When_to_js_typed allDay)))) Hshape).
Defined.

(** ** Rendering *)

Lemma rmapM_Ok {A B} (f : A → result B) (l : list A) (l' : list B) :
  rmapM f l = Ok l' ↔ Forall2 (λ a b, f a = Ok b) l l'.
Proof.
  revert l'. induction l as [|a l IH]; intros l'; simpl.
  - split; [intros [= <-]; constructor | by inversion 1].
  - split.
    + destruct (f a) as [b|] eqn:Hb; simpl; [|done].
      destruct (rmapM f l) as [bs|] eqn:Hbs; simpl; [|done].
      intros [= <-]. constructor; [done|]. by apply IH.
    + inversion 1 as [|? b ? bs Hb Hbs]; subst. rewrite Hb. simpl.
      apply IH in Hbs. by rewrite Hbs.
Qed.

Lemma truthy_number_or_null (o : option Z) :
  truthy (number_or_null o) = usable o.
Proof. by destruct o. Qed.

Lemma usable_false (o : option Z) :
  usable o = false ↔ number_or_null o = JNull ∨ number_or_null o = JNum 0.
Proof.
  destruct o as [z|]; simpl.
  - rewrite negb_false_iff, Z.eqb_eq. split.
    + intros ->. by right.
    + intros [|[= ->]]; done.
  - split; [by left | done].
Qed.

(** The callback of [data.map] on a well-typed event: the guard comes
    first, then the formatting of the times, which throws when one of them
    is no valid time of a [Date]. *)
Lemma renderItem_typed (lib : DateLib) (item : jsval) (e : NylasEvent.t) :
  is_NylasEvent item e → renderItem lib item = rowOf e.
Proof.
  intros (m & -> & Hid & Hw & Ht & (ps & Hps & Hall) & Hc).
  unfold renderItem. cbn [member rbind].
  rewrite (getStartTime_typed _ _ Hw), (getEndTime_typed _ _ Hw),
    (getMeetingUrl_typed _ _ Hc).
  cbn [rbind]. rewrite !truthy_number_or_null.
  unfold rowOf, renderable, visibleRow, formattable, shown, startOf, endOf,
    meetingUrlOf, whoOf.
  destruct (first_present (start_precedence _)) as [s|]; [|done].
  destruct (first_present (end_precedence _)) as [t|];
    [|by destruct (usable (Some s))].
  destruct (usable (Some s)); [|done].
  destruct (usable (Some t)); [|done].
  cbn [negb orb andb rbind number_or_null from_option in_range default id].
  unfold formatUnixTime.
  destruct (valid_time s); [|done].
  destruct (valid_time t); [|done].
  red in Hid, Ht. rewrite Hid, Ht, Hps. simpl.
  destruct Hall as [|p q ps qs (mp & -> & Hname) Hall]; simpl; [done|].
  red in Hname. rewrite Hname. simpl.
  by destruct (String.eqb (Participant.name q) "").
Qed.

Lemma rowOf_renderable (e : NylasEvent.t) :
  renderable e = true → rowOf e = Ok (visibleRow e).
Proof. intros H. unfold rowOf. by rewrite H. Qed.

Lemma rowOf_not_renderable (e : NylasEvent.t) :
  renderable e = false → rowOf e = Throw RangeError.
Proof. intros H. unfold rowOf. by rewrite H. Qed.

Lemma renderItems_typed (lib : DateLib) (data : list jsval)
    (events : list NylasEvent.t) :
  Forall2 is_NylasEvent data events →
  Forall (λ e, renderable e = true) events →
  rmapM (renderItem lib) data = Ok (visibleRow <$> events).
Proof.
  intros Hall Hok. apply rmapM_Ok.
  induction Hall as [|item e data events He Hall IH]; simpl; [constructor|].
  apply Forall_cons in Hok as [Hok Hoks]. constructor; [|by apply IH].
  by rewrite (renderItem_typed lib item e He), (rowOf_renderable e Hok).
Qed.

(** One event whose truthy times cannot be formatted stops the whole
    list. *)
Lemma renderItems_out_of_range (lib : DateLib) (data : list jsval)
    (events : list NylasEvent.t) :
  Forall2 is_NylasEvent data events →
  Exists (λ e, renderable e = false) events →
  rmapM (renderItem lib) data = Throw RangeError.
Proof.
  intros Hall Hbad.
  induction Hall as [|item e data events He Hall IH]; simpl;
    [by apply Exists_nil in Hbad|].
  rewrite (renderItem_typed lib item e He).
  destruct (renderable e) eqn:Hok.
  - rewrite (rowOf_renderable e Hok). simpl.
    apply Exists_cons in Hbad as [Hbad | Hbad]; [congruence|].
    by rewrite (IH Hbad).
  - by rewrite (rowOf_not_renderable e Hok).
Qed.

Lemma renderPage_typed (lib : DateLib) (data : list jsval)
    (events : list NylasEvent.t) :
  Forall2 is_NylasEvent data events →
  Forall (λ e, renderable e = true) events →
  renderPage lib data
  = Ok (Element "Fragment" []
          [ if Nat.eqb (length events) 0 then emptyState
            else bookingsCard (visibleRow <$> events) ]).
Proof.
  intros Hall Hok. unfold renderPage.
  rewrite (Forall2_length _ _ _ Hall).
  destruct (Nat.eqb (length events) 0); [done|].
  by rewrite (renderItems_typed lib data events Hall Hok).
Qed.

(** Every booking form is a cancel form bound to the id it was built for. *)
Lemma cancel_target_bookingForm (id : jsval) (day from to : jsx)
    (meetingUrl title who : jsval) :
  cancel_target (bookingForm id day from to meetingUrl title who) = Some id.
Proof.
  unfold cancel_target, bookingForm. cbn [attribute List.find fst snd
    String.eqb Ascii.eqb Bool.eqb fmap option_fmap option_map andb].
  assert (has_submit "Cancel Event"
            (Element "SubmitButton"
               [("text", PStr "Cancel Event"); ("variant", PStr "destructive");
                className "w-fit flex ml-auto"] []) = true) as Hbutton
    by reflexivity.
  cbn [has_submit existsb] in Hbutton |- *. rewrite Hbutton.
  by rewrite !orb_true_r.
Qed.

Lemma is_null_row_visibleRow (e : NylasEvent.t) :
  is_null_row (visibleRow e) = negb (shown e).
Proof. unfold visibleRow. by destruct (shown e). Qed.

Lemma rendered_rows_bookingsCard (rows : list jsx) :
  rendered_rows (Element "Fragment" [] [ bookingsCard rows ])
  = filter (λ row, is_null_row row = false) rows.
Proof. reflexivity. Qed.

(** The rows on screen are the forms of the events with a usable start and
    end, in the order of the data. *)
Lemma cancel_targets_typed (events : list NylasEvent.t) :
  cancel_target
    <$> filter (λ row, is_null_row row = false) (visibleRow <$> events)
  = (λ e, Some (JStr (NylasEvent.id e)))
    <$> filter (λ e, shown e = true) events.
Proof.
  induction events as [|e events IH]; [done|].
  rewrite fmap_cons, !filter_cons, is_null_row_visibleRow.
  destruct (shown e) eqn:Hshown; simpl.
  - f_equal; [|apply IH].
    unfold visibleRow. rewrite Hshown. apply cancel_target_bookingForm.
  - apply IH.
Qed.

(** ** getData *)

Lemma nullish_not_truthy (v : jsval) : nullish v = true → truthy v = false.
Proof. by destruct v. Qed.

Lemma truthy_optional_string (v : jsval) (o : option string) :
  optional is_string v o →
  truthy v = negb (blank o) ∧ (blank o = false → v = string_or_null o).
Proof.
  intros H. apply optional_string_inv in H.
  destruct H as [(s & -> & ->) | (-> & H)]; simpl; [done|].
  by rewrite nullish_not_truthy.
Qed.

(** A rejected lookup is rethrown, and nothing else happens. *)
Lemma getData_lookup_rejects (env : Env) (userId : jsval) (log : list Call)
    (e : exn) :
  prisma_user_findUnique env userId = Throw e →
  getData userId env log = (Throw e, (log ++ [CallFindUnique userId])%list).
Proof. intros H. unfold getData, mbind_M, call. by rewrite H. Qed.

(** [getData] after a lookup that succeeded: either one of the three guards
    stops it before the vendor is called, or the vendor is called once, with
    the user's grant id and e-mail, and its outcome is the outcome. *)
Lemma getData_typed (env : Env) (userId : jsval) (log : list Call)
    (v : jsval) (userData : option UserData.t) :
  prisma_user_findUnique env userId = Ok v →
  optional is_UserData v userData →
  getData userId env log
  = match guard_error userData with
    | Some message =>
        (Throw (Error message), (log ++ [CallFindUnique userId])%list)
    | None =>
        let grantId := string_or_null (userData ≫= UserData.grantId) in
        let grantEmail := string_or_null (userData ≫= UserData.grantEmail) in
        (fetchEvents env grantId grantEmail,
         (log ++ [CallFindUnique userId;
                  CallEventsList grantId grantEmail])%list)
    end.
Proof.
  intros Hfind Htyped. unfold getData, mbind_M, call. rewrite Hfind.
  destruct userData as [u|]; simpl in Htyped |- *.
  - destruct Htyped as (m & -> & Hid & Hemail).
    cbn [truthy negb lift member].
    destruct (truthy_optional_string _ _ Hid) as [-> Hidv].
    destruct (blank (UserData.grantId u)); [done|]. cbn [negb].
    destruct (truthy_optional_string _ _ Hemail) as [-> Hemailv].
    destruct (blank (UserData.grantEmail u)); [done|]. cbn [negb].
    rewrite Hidv, Hemailv by done. rewrite <- app_assoc. simpl.
    unfold fetchEvents, lift.
    destruct (nylas_events_list env _ _) as [response|]; [|done]. simpl.
    by destruct (member response "data").
  - by rewrite (nullish_not_truthy _ Htyped).
Qed.

(** Whenever [getData] returns, it has called the vendor, and what it
    returns is the vendor's answer normalized. *)
Lemma getData_Ok_inv (env : Env) (userId : jsval) (log log' : list Call)
    (data : list jsval) :
  getData userId env log = (Ok data, log') →
  ∃ grantId grantEmail,
    fetchEvents env grantId grantEmail = Ok data
    ∧ log' = (log ++ [CallFindUnique userId;
                      CallEventsList grantId grantEmail])%list.
Proof.
  unfold getData, mbind_M, call, lift, throw.
  destruct (prisma_user_findUnique env userId) as [userData|]; [|done].
  destruct (truthy userData); [|done]. cbn [negb].
  destruct (member userData "grantId") as [grantId|]; [|done].
  destruct (truthy grantId); [|done]. cbn [negb].
  destruct (member userData "grantEmail") as [grantEmail|]; [|done].
  destruct (truthy grantEmail); [|done]. cbn [negb].
  rewrite <- app_assoc. simpl. intros H.
  exists grantId, grantEmail. unfold fetchEvents.
  destruct (nylas_events_list env grantId grantEmail) as [response|];
    [|done].
  simpl in H |- *. destruct (member response "data") as [d|]; [|done].
  simpl. by injection H as -> ->.
Qed.

Lemma fetchEvents_Ok_inv (env : Env) (grantId grantEmail : jsval)
    (data : list jsval) :
  fetchEvents env grantId grantEmail = Ok data →
  ∃ response events,
    nylas_events_list env grantId grantEmail = Ok response
    ∧ member response "data" = Ok (JArr events)
    ∧ Forall2 (λ event out, normalizeEvent event = Ok out) events data.
Proof.
  unfold fetchEvents.
  destruct (nylas_events_list env grantId grantEmail) as [response|];
    [|done].
  simpl. destruct (member response "data") as [d|] eqn:Hd; [|done]. simpl.
  destruct d as [| | | | |events|]; try done. simpl. intros H.
  exists response, events. by rewrite <- rmapM_Ok.
Qed.

Lemma normalizeParticipant_typed (v : jsval) (p : VendorParticipant.t) :
  is_VendorParticipant v p →
  normalizeParticipant v
  = Ok (JObj (<["name" := JStr (default "" (VendorParticipant.name p))]> ∅)).
Proof.
  intros (m & -> & Hname). unfold normalizeParticipant. cbn [member].
  apply optional_string_inv in Hname.
  destruct Hname as [(s & -> & ->) | (-> & Hname)]; [done|].
  by rewrite (coalesce_absent _ _ Hname).
Qed.

Lemma normalizeParticipants_typed (vs : list jsval)
    (ps : list VendorParticipant.t) :
  Forall2 is_VendorParticipant vs ps →
  rmapM normalizeParticipant vs
  = Ok ((λ p, JObj (<["name" :=
                        JStr (default "" (VendorParticipant.name p))]> ∅))
        <$> ps).
Proof.
  intros Hall. apply rmapM_Ok.
  induction Hall; simpl; constructor;
    auto using normalizeParticipant_typed.
Qed.

(** The callback of [response.data.map] on a well-typed vendor event. *)
Lemma normalizeEvent_typed (event : jsval) (ve : VendorEvent.t) :
  is_VendorEvent event ve →
  ∃ out, normalizeEvent event = Ok out
    ∧ normalizes ve event out
    ∧ is_NylasEvent out (normalized ve).
Proof.
  intros (m & -> & Hid & Hw & Ht & Hps & Hc).
  unfold normalizeEvent. cbn [spread member rbind].
  assert (Ok (field m "title") ?? Ok (JStr "")
          = Ok (JStr (default "" (VendorEvent.title ve)))) as ->.
  { apply optional_string_inv in Ht.
    destruct Ht as [(s & -> & ->) | (-> & Ht)]; [done|].
    by rewrite (coalesce_absent _ _ Ht). }
  assert (opt_array_map (field m "participants") normalizeParticipant
            ?? Ok (JArr [])
          = Ok (JArr ((λ p, JObj (<["name" :=
                         JStr (default "" (VendorParticipant.name p))]> ∅))
                      <$> default [] (VendorEvent.participants ve)))) as ->.
  { destruct (VendorEvent.participants ve) as [ps|]; simpl in Hps |- *.
    - destruct Hps as (vs & -> & Hall).
      unfold opt_array_map. cbn [nullish array_map].
      by rewrite (normalizeParticipants_typed _ _ Hall).
    - unfold opt_array_map. rewrite Hps. done. }
  cbn [rbind]. eexists. split; [reflexivity|]. split.
  - exists m. eexists. split; [reflexivity|]. split; [reflexivity|].
    split; [|split].
    + rewrite lookup_insert_ne by done. by rewrite lookup_insert_eq.
    + by rewrite lookup_insert_eq.
    + intros k Ht' Hp'. by rewrite !lookup_insert_ne.
  - eexists. split; [reflexivity|].
    read_field.
    split; [done|]. split; [done|]. split; [done|]. split; [|done].
    eexists. split; [reflexivity|]. cbn [normalized NylasEvent.participants].
    induction (default [] (VendorEvent.participants ve)) as [|p ps IH];
      simpl; constructor; [|done].
    eexists. split; [reflexivity|]. unfold is_string. by read_field.
Qed.

(** The vendor call on a well-typed answer: every event is normalized into
    a well-typed [NylasEvent]. *)
Lemma fetchEvents_typed (env : Env) (grantId grantEmail response : jsval)
    (events : list jsval) (ves : list VendorEvent.t) :
  nylas_events_list env grantId grantEmail = Ok response →
  member response "data" = Ok (JArr events) →
  Forall2 is_VendorEvent events ves →
  ∃ data, fetchEvents env grantId grantEmail = Ok data
    ∧ Forall2 is_NylasEvent data (normalized <$> ves).
Proof.
  intros Hr Hd Hall. unfold fetchEvents. rewrite Hr. simpl. rewrite Hd. simpl.
  clear Hr Hd.
  induction Hall as [|event ve events ves Hve Hall IH]; simpl.
  - exists []. split; [done | constructor].
  - destruct (normalizeEvent_typed event ve Hve) as (out & -> & _ & Hout).
    destruct IH as (data & -> & Hdata). simpl.
    exists (out :: data). split; [done | by constructor].
Qed.

(** For a connected user and a well-typed answer of the vendor, [getData]
    returns. *)
Lemma getData_returns_typed (env : Env) (userId : jsval) (log : list Call)
    (v : jsval) (u : UserData.t) (response : jsval) (events : list jsval)
    (ves : list VendorEvent.t) :
  let grantId := string_or_null (UserData.grantId u) in
  let grantEmail := string_or_null (UserData.grantEmail u) in
  prisma_user_findUnique env userId = Ok v →
  is_UserData v u →
  blank (UserData.grantId u) = false →
  blank (UserData.grantEmail u) = false →
  nylas_events_list env grantId grantEmail = Ok response →
  member response "data" = Ok (JArr events) →
  Forall2 is_VendorEvent events ves →
  ∃ data,
    getData userId env log
    = (Ok data,
       (log ++ [CallFindUnique userId;
                CallEventsList grantId grantEmail])%list)
    ∧ Forall2 is_NylasEvent data (normalized <$> ves).
Proof.
  intros grantId grantEmail Hfind Hu Hid Hemail Hr Hd Hall.
  rewrite (getData_typed env userId log v (Some u) Hfind Hu).
  simpl. rewrite Hid, Hemail. cbv zeta. simpl.
  destruct (fetchEvents_typed _ _ _ _ _ _ Hr Hd Hall) as (data & Hf & Hdata).
  exists data. split; [|done]. fold grantId grantEmail. by rewrite Hf.
Qed.

(** ** The page *)

(** [MeetingsPage] returns a page only after one call each to the session,
    the database and the vendor, and the page is the rendering of the
    vendor's normalized events. *)
Lemma MeetingsPage_Ok_inv (lib : DateLib) (env : Env) (log log' : list Call)
    (page : jsx) :
  MeetingsPage lib env log = (Ok page, log') →
  ∃ userId grantId grantEmail data,
    log' = (log ++ [CallAuth; CallFindUnique userId;
                    CallEventsList grantId grantEmail])%list
    ∧ fetchEvents env grantId grantEmail = Ok data
    ∧ renderPage lib data = Ok page.
Proof.
  unfold MeetingsPage, mbind_M, call, lift.
  destruct (auth env) as [session|]; [|done].
  destruct (rbind (opt_member session "user") _) as [userId|]; [|done].
  destruct (getData userId env _) as [[data|] log1] eqn:Hdata; [|done].
  apply getData_Ok_inv in Hdata as (grantId & grantEmail & Hfetch & ->).
  intros [= Hpage <-]. exists userId, grantId, grantEmail, data.
  by rewrite <- app_assoc.
Qed.

Lemma shown_normalized_ids (ves : list VendorEvent.t) :
  (λ e, Some (JStr (NylasEvent.id e)))
    <$> filter (λ e, shown e = true) (normalized <$> ves)
  = (λ ve, Some (JStr (VendorEvent.id ve)))
    <$> filter (λ ve, shown (normalized ve) = true) ves.
Proof.
  induction ves as [|ve ves IH]; [done|].
  rewrite fmap_cons, !filter_cons.
  destruct (decide (shown (normalized ve) = true)) as [H|H].
  - rewrite !fmap_cons. by f_equal.
  - done.
Qed.

(** The claim that every rendered entry is an upcoming event fails: the
    vendor returns a booking of 2 January 1970 and, late in 2023, the page
    still shows it with its cancel form. *)
Lemma past_booking_is_rendered :
  ∃ page,
    MeetingsPage strictDates calmEnv []
    = (Ok page,
       [CallAuth; CallFindUnique (JStr "user_1");
        CallEventsList (JStr "grant_1") (JStr "ana@example.com")])
    ∧ cancel_target <$> rendered_rows page = [Some (JStr "evt_1970")]
    ∧ past 1700000000 (normalized oldVendorEvent)
    ∧ ¬ upcoming 1700000000 (normalized oldVendorEvent).
Proof.
  eexists. split; [vm_compute; reflexivity|].
  split; [vm_compute; reflexivity|]. split.
  - exists 90000. split; [reflexivity | lia].
  - intros (s & Hs & Hle). vm_compute in Hs. injection Hs as <-. lia.
Qed.

(** C6 (amended): the page fetches the user's events from the vendor API
    and renders them as a list of bookings, past and upcoming alike: when
    every fetched event with a truthy start and end has them within the
    range of a [Date], the rendered entries are, in order, the fetched
    events with a truthy start and end, and each is a cancel form bound to
    that event's id. *)
Theorem bookings_have_cancel_forms (lib : DateLib) (env : Env)
    (log : list Call) (session userId v : jsval) (u : UserData.t)
    (response : jsval) (events : list jsval) (ves : list VendorEvent.t) :
  let grantId := string_or_null (UserData.grantId u) in
  let grantEmail := string_or_null (UserData.grantEmail u) in
  auth env = Ok session →
  (let! user := opt_member session "user" in opt_member user "id")
  = Ok userId →
  prisma_user_findUnique env userId = Ok v →
  is_UserData v u →
  blank (UserData.grantId u) = false →
  blank (UserData.grantEmail u) = false →
  nylas_events_list env grantId grantEmail = Ok response →
  member response "data" = Ok (JArr events) →
  Forall2 is_VendorEvent events ves →
  Forall (λ ve, renderable (normalized ve) = true) ves →
  ∃ page,
    MeetingsPage lib env log
    = (Ok page,
       (log ++ [CallAuth; CallFindUnique userId;
                CallEventsList grantId grantEmail])%list)
    ∧ cancel_target <$> rendered_rows page
      = (λ ve, Some (JStr (VendorEvent.id ve)))
        <$> filter (λ ve, shown (normalized ve) = true) ves.
Proof.
  intros grantId grantEmail Hauth Huser Hfind Hu Hid Hemail Hr Hd Hall Hok.
  destruct (getData_returns_typed env userId (log ++ [CallAuth]) v u
              response events ves Hfind Hu Hid Hemail Hr Hd Hall)
    as (data & Hdata & Htyped).
  assert (Hok' : Forall (λ e, renderable e = true) (normalized <$> ves)).
  { by apply Forall_fmap. }
  eexists. split.
  - unfold MeetingsPage, mbind_M, call, lift.
    rewrite Hauth, Huser, Hdata, (renderPage_typed lib _ _ Htyped Hok').
    by rewrite <- app_assoc.
  - rewrite length_fmap.
    destruct ves as [|ve ves]; [done|].
    cbn [length Nat.eqb]. rewrite rendered_rows_bookingsCard.
    rewrite cancel_targets_typed. apply shown_normalized_ids.
Qed.

Lemma bookings_have_cancel_forms_witness :
  auth calmEnv = Ok session
  ∧ (let! user := opt_member session "user" in opt_member user "id")
    = Ok (JStr "user_1")
  ∧ prisma_user_findUnique calmEnv (JStr "user_1")
    = Ok (UserData_to_js connectedUser)
  ∧ is_UserData (UserData_to_js connectedUser) connectedUser
  ∧ blank (UserData.grantId connectedUser) = false
  ∧ blank (UserData.grantEmail connectedUser) = false
  ∧ nylas_events_list calmEnv (JStr "grant_1") (JStr "ana@example.com")
    = Ok (JObj (<["data" := JArr [ VendorEvent_to_js oldVendorEvent ]]> ∅))
  ∧ member (JObj (<["data" := JArr [ VendorEvent_to_js oldVendorEvent ]]> ∅))
      "data"
    = Ok (JArr [ VendorEvent_to_js oldVendorEvent ])
  ∧ Forall2 is_VendorEvent [ VendorEvent_to_js oldVendorEvent ]
      [ oldVendorEvent ]
  ∧ Forall (λ ve, renderable (normalized ve) = true) [ oldVendorEvent ]
  ∧ ∃ page,
      MeetingsPage strictDates calmEnv []
      = (Ok page,
         [CallAuth; CallFindUnique (JStr "user_1");
          CallEventsList (JStr "grant_1") (JStr "ana@example.com")])
      ∧ cancel_target <$> rendered_rows page = [ Some (JStr "evt_1970") ].
Proof.
  assert (Htyped : Forall2 is_VendorEvent [ VendorEvent_to_js oldVendorEvent ]
                     [ oldVendorEvent ]).
  { repeat constructor. apply VendorEvent_to_js_typed. }
  assert (Hok : Forall (λ ve, renderable (normalized ve) = true)
                  [ oldVendorEvent ]).
  { by repeat constructor. }
  do 3 (split; [reflexivity|]).
  split; [apply UserData_to_js_typed|].
  do 4 (split; [reflexivity|]).
  split; [exact Htyped|]. split; [exact Hok|].
  exact (bookings_have_cancel_forms strictDates calmEnv [] session
           (JStr "user_1")
           (UserData_to_js connectedUser) connectedUser
           (JObj (<["data" := JArr [ VendorEvent_to_js oldVendorEvent ]]> ∅))
           [ VendorEvent_to_js oldVendorEvent ] [ oldVendorEvent ]
           eq_refl eq_refl eq_refl (UserData_to_js_typed connectedUser)
           eq_refl eq_refl eq_refl eq_refl Htyped Hok).
Defined.

(** The row of a well-typed event that does not stop the page, against the
    times extracted from the item: a [null] row when one of them is [null]
    or 0, and otherwise the cancel form of the item's own id. *)
Lemma renderItem_row (lib : DateLib) (item : jsval) (e : NylasEvent.t) :
  is_NylasEvent item e →
  renderable e = true →
  renderItem lib item = Ok (visibleRow e)
  ∧ ∃ when startTime endTime id,
      member item "when" = Ok when
      ∧ getStartTime when = Ok startTime
      ∧ getEndTime when = Ok endTime
      ∧ member item "id" = Ok id
      ∧ (truthy startTime = true ∧ truthy endTime = true
         ↔ is_null_row (visibleRow e) = false)
      ∧ (truthy startTime = true ∧ truthy endTime = true →
         cancel_target (visibleRow e) = Some id)
      ∧ (skipped startTime endTime ↔ visibleRow e = Expr JNull).
Proof.
  intros He Hok. split.
  { by rewrite (renderItem_typed lib item e He), (rowOf_renderable e Hok). }
  destruct He as (m & -> & Hid & Hw & _).
  exists (field m "when"). do 2 eexists. exists (field m "id").
  split; [reflexivity|].
  split; [by apply getStartTime_typed|].
  split; [by apply getEndTime_typed|].
  split; [reflexivity|].
  rewrite is_null_row_visibleRow, !truthy_number_or_null.
  fold (startOf e) (endOf e).
  assert (Hskip : skipped (number_or_null (startOf e))
                    (number_or_null (endOf e)) ↔ shown e = false).
  { unfold skipped, shown. rewrite andb_false_iff, !usable_false. tauto. }
  assert (Hboth : usable (startOf e) = true ∧ usable (endOf e) = true
                  ↔ shown e = true).
  { unfold shown. by rewrite andb_true_iff. }
  rewrite Hskip, Hboth. unfold visibleRow.
  destruct (shown e); cbn [negb].
  - split; [done|]. split; [|done].
    intros _. red in Hid. rewrite Hid. apply cancel_target_bookingForm.
  - split; [done|]. split; [done|done].
Qed.

(** The claim that an event is rendered whenever both of its times are
    truthy fails: a booking dated one second past the last time a [Date]
    can hold has a truthy start and end, yet formatting them throws a
    RangeError, so neither it nor the booking listed before it is
    rendered. *)
Lemma far_booking_is_not_rendered :
  is_NylasEvent (NylasEvent_to_js farBooking) farBooking
  ∧ getStartTime (When_to_js (NylasEvent.when farBooking))
    = Ok (JNum 8640000000001)
  ∧ getEndTime (When_to_js (NylasEvent.when farBooking))
    = Ok (JNum 8640000003601)
  ∧ truthy (JNum 8640000000001) = true
  ∧ truthy (JNum 8640000003601) = true
  ∧ renderItem strictDates (NylasEvent_to_js farBooking) = Throw RangeError
  ∧ renderPage strictDates
      [ NylasEvent_to_js oldBooking; NylasEvent_to_js farBooking ]
    = Throw RangeError.
Proof.
  split; [apply NylasEvent_to_js_typed|].
  repeat split; vm_compute; reflexivity.
Qed.

(** C7 (amended): an event whose extracted start or end time is [null] or
    the number 0 is silently skipped.  When every event with a truthy start
    and end has them within the range of a [Date], an event is rendered, as
    the cancel form of its id, if and only if both times are truthy; when
    some event has truthy times outside that range, formatting them throws
    a RangeError and nothing is rendered. *)
Theorem rendered_iff_times_truthy (lib : DateLib) (data : list jsval)
    (events : list NylasEvent.t) :
  Forall2 is_NylasEvent data events →
  (Forall (λ e, renderable e = true) events →
   ∃ page rows,
     renderPage lib data = Ok page
     ∧ rendered_rows page = filter (λ row, is_null_row row = false) rows
     ∧ Forall2
         (λ item row,
            renderItem lib item = Ok row
            ∧ ∃ when startTime endTime id,
                member item "when" = Ok when
                ∧ getStartTime when = Ok startTime
                ∧ getEndTime when = Ok endTime
                ∧ member item "id" = Ok id
                ∧ (truthy startTime = true ∧ truthy endTime = true
                   ↔ is_null_row row = false)
                ∧ (truthy startTime = true ∧ truthy endTime = true →
                   cancel_target row = Some id)
                ∧ (skipped startTime endTime ↔ row = Expr JNull))
         data rows)
  ∧ (Exists (λ e, renderable e = false) events →
     renderPage lib data = Throw RangeError).
Proof.
  intros Hall. split.
  - intros Hok. eexists. exists (visibleRow <$> events).
    split; [by apply renderPage_typed|]. split; [by destruct events|].
    clear -Hall Hok.
    induction Hall as [|item e data events He Hall IH]; simpl;
      [constructor|].
    apply Forall_cons in Hok as [Hok Hoks].
    constructor; [|by apply IH]. by apply renderItem_row.
  - intros Hbad. unfold renderPage.
    destruct data as [|item data].
    + apply Forall2_nil_inv_l in Hall as ->. by apply Exists_nil in Hbad.
    + cbn [length Nat.eqb].
      by rewrite (renderItems_out_of_range lib _ _ Hall Hbad).
Qed.

Lemma rendered_iff_times_truthy_witness :
  Forall2 is_NylasEvent
    [ NylasEvent_to_js oldBooking; NylasEvent_to_js epochBooking ]
    [ oldBooking; epochBooking ]
  ∧ Forall (λ e, renderable e = true) [ oldBooking; epochBooking ]
  ∧ ∃ page rows,
      renderPage strictDates
        [ NylasEvent_to_js oldBooking; NylasEvent_to_js epochBooking ]
      = Ok page
      ∧ rendered_rows page = filter (λ row, is_null_row row = false) rows
      ∧ Forall2
          (λ item row,
             renderItem strictDates item = Ok row
             ∧ ∃ when startTime endTime id,
                 member item "when" = Ok when
                 ∧ getStartTime when = Ok startTime
                 ∧ getEndTime when = Ok endTime
                 ∧ member item "id" = Ok id
                 ∧ (truthy startTime = true ∧ truthy endTime = true
                    ↔ is_null_row row = false)
                 ∧ (truthy startTime = true ∧ truthy endTime = true →
                    cancel_target row = Some id)
                 ∧ (skipped startTime endTime ↔ row = Expr JNull))
          [ NylasEvent_to_js oldBooking; NylasEvent_to_js epochBooking ]
          rows
      ∧ cancel_target <$> rows = [ Some (JStr "evt_1970"); None ].
Proof.
  assert (Htyped : Forall2 is_NylasEvent
            [ NylasEvent_to_js oldBooking; NylasEvent_to_js epochBooking ]
            [ oldBooking; epochBooking ]).
  { repeat constructor; apply NylasEvent_to_js_typed. }
  assert (Hok : Forall (λ e, renderable e = true) [ oldBooking; epochBooking ]).
  { by repeat constructor. }
  split; [exact Htyped|]. split; [exact Hok|].
  destruct (proj1 (rendered_iff_times_truthy strictDates _ _ Htyped) Hok)
    as (page & rows & Hpage & Hrows & Hall).
  exists page, rows. do 3 (split; [assumption|]).
  apply Forall2_cons_inv_l in Hall as (row1 & rows1 & [H1 _] & Hall & ->).
  apply Forall2_cons_inv_l in Hall as (row2 & rows2 & [H2 _] & Hall & ->).
  apply Forall2_nil_inv_l in Hall as ->.
  vm_compute in H1, H2. injection H1 as <-. injection H2 as <-.
  vm_compute. reflexivity.
Defined.

(** A start at the epoch is treated like a missing start. *)
Example epoch_start_is_skipped :
  renderItem strictDates (NylasEvent_to_js epochBooking) = Ok (Expr JNull).
Proof. vm_compute. reflexivity. Qed.

(** ** The guards of getData *)

(** The claim that [getData] throws exactly in the three guarded cases
    fails: for a connected user whose grant the vendor rejects, none of the
    guards fires, the vendor is called, and [getData] throws the vendor's
    error. *)
Lemma vendor_rejection_propagates :
  prisma_user_findUnique revokedEnv (JStr "user_1")
  = Ok (UserData_to_js connectedUser)
  ∧ blank (UserData.grantId connectedUser) = false
  ∧ blank (UserData.grantEmail connectedUser) = false
  ∧ getData (JStr "user_1") revokedEnv []
    = (Throw (Rejected "401 Unauthorized"),
       [CallFindUnique (JStr "user_1");
        CallEventsList (JStr "grant_1") (JStr "ana@example.com")]).
Proof. repeat split; vm_compute; reflexivity. Qed.

Lemma vendor_called_app (log more : list Call) :
  vendor_called (log ++ more) = vendor_called log || vendor_called more.
Proof. unfold vendor_called. apply existsb_app. Qed.

(** C8 (amended): after a successful lookup, [getData] throws before calling
    the vendor API exactly when the lookup yields no user record, a user
    whose grantId is missing or empty, or a user whose grantEmail is missing
    or empty, with the messages "User not found", "User grantId not found"
    and "User grantEmail not found"; otherwise it calls the vendor API once
    and returns or throws what that call and the normalization yield. *)
Theorem getData_guards (env : Env) (userId : jsval) (log : list Call)
    (v : jsval) (userData : option UserData.t) :
  prisma_user_findUnique env userId = Ok v →
  optional is_UserData v userData →
  let stopped message :=
    getData userId env log
    = (Throw (Error message), (log ++ [CallFindUnique userId])%list) in
  (userData = None → stopped "User not found")
  ∧ (∀ u, userData = Some u → blank (UserData.grantId u) = true →
          stopped "User grantId not found")
  ∧ (∀ u, userData = Some u → blank (UserData.grantId u) = false →
          blank (UserData.grantEmail u) = true →
          stopped "User grantEmail not found")
  ∧ (∀ u, userData = Some u → blank (UserData.grantId u) = false →
          blank (UserData.grantEmail u) = false →
          ∃ grantId grantEmail,
            UserData.grantId u = Some grantId
            ∧ UserData.grantEmail u = Some grantEmail
            ∧ getData userId env log
              = (fetchEvents env (JStr grantId) (JStr grantEmail),
                 (log ++ [CallFindUnique userId;
                          CallEventsList (JStr grantId) (JStr grantEmail)])
                 %list))
  ∧ (vendor_called log = false →
     (vendor_called (snd (getData userId env log)) = false
      ↔ userData = None
        ∨ ∃ u, userData = Some u
               ∧ (blank (UserData.grantId u) = true
                  ∨ blank (UserData.grantEmail u) = true))).
Proof.
  intros Hfind Htyped. cbv zeta.
  rewrite (getData_typed env userId log v userData Hfind Htyped).
  split; [by intros ->|].
  split; [by intros u -> Hid; simpl; rewrite Hid|].
  split; [by intros u -> Hid Hemail; simpl; rewrite Hid, Hemail|].
  split.
  - intros u -> Hid Hemail. simpl. rewrite Hid, Hemail.
    destruct u as [[grantId|] [grantEmail|]]; try done.
    by exists grantId, grantEmail.
  - intros Hlog. destruct userData as [u|]; simpl.
    + destruct (blank (UserData.grantId u)) eqn:Hid; simpl.
      { rewrite vendor_called_app, Hlog. split; [|done].
        intros _. right. exists u. auto. }
      destruct (blank (UserData.grantEmail u)) eqn:Hemail; simpl.
      { rewrite vendor_called_app, Hlog. split; [|done].
        intros _. right. exists u. auto. }
      rewrite vendor_called_app, Hlog. simpl. split; [done|].
      intros [|(u' & [= <-] & [|])]; congruence.
    + rewrite vendor_called_app, Hlog. split; [auto | done].
Qed.

Lemma getData_guards_witness :
  prisma_user_findUnique unconnectedEnv (JStr "user_1")
  = Ok (UserData_to_js (UserData.Build None None))
  ∧ optional is_UserData (UserData_to_js (UserData.Build None None))
      (Some (UserData.Build None None))
  ∧ getData (JStr "user_1") unconnectedEnv []
    = (Throw (Error "User grantId not found"),
       [CallFindUnique (JStr "user_1")]).
Proof.
  split; [reflexivity|]. split; [apply UserData_to_js_typed|].
  exact (proj1 (proj2
           (getData_guards unconnectedEnv (JStr "user_1") []
              _ (Some (UserData.Build None None))
              eq_refl (UserData_to_js_typed _)))
           (UserData.Build None None) eq_refl eq_refl).
Defined.

(** ** The normalization of getData *)

(** C9: every event [getData] returns is the vendor's event with [title]
    made a string (an absent title becomes [""]) and [participants] made an
    array of [{ name: string }] (an absent list becomes [[]], an absent name
    [""]); every other member of the vendor's event is passed through
    unchanged. *)
Theorem getData_normalizes (env : Env) (userId : jsval)
    (log log' : list Call) (data : list jsval) :
  getData userId env log = (Ok data, log') →
  ∃ grantId grantEmail response events,
    nylas_events_list env grantId grantEmail = Ok response
    ∧ member response "data" = Ok (JArr events)
    ∧ Forall2
        (λ event out, ∀ ve, is_VendorEvent event ve → normalizes ve event out)
        events data.
Proof.
  intros Hdata.
  apply getData_Ok_inv in Hdata as (grantId & grantEmail & Hfetch & _).
  apply fetchEvents_Ok_inv in Hfetch as (response & events & Hr & Hd & Hall).
  exists grantId, grantEmail, response, events.
  split; [done|]. split; [done|].
  eapply Forall2_impl; [exact Hall|]. simpl.
  intros event out Hout ve Hve.
  destruct (normalizeEvent_typed event ve Hve) as (out' & Hout' & Hn & _).
  congruence.
Qed.

Lemma getData_normalizes_witness :
  ∃ data log',
    getData (JStr "user_1") calmEnv [] = (Ok data, log')
    ∧ ∃ grantId grantEmail response events,
        nylas_events_list calmEnv grantId grantEmail = Ok response
        ∧ member response "data" = Ok (JArr events)
        ∧ Forall2
            (λ event out,
               ∀ ve, is_VendorEvent event ve → normalizes ve event out)
            events data.
Proof.
  eexists. eexists. split; [vm_compute; reflexivity|].
  eapply (getData_normalizes calmEnv (JStr "user_1") []).
  vm_compute. reflexivity.
Defined.

(** The vendor's sample event before and after: the missing title and the
    missing participant name become empty strings, [id] stays. *)
Example normalizeEvent_sample :
  ∃ m, normalizeEvent (VendorEvent_to_js oldVendorEvent) = Ok (JObj m)
    ∧ m !! "title" = Some (JStr "")
    ∧ m !! "participants" = Some (JArr [ JObj (<["name" := JStr ""]> ∅) ])
    ∧ m !! "id" = Some (JStr "evt_1970").
Proof.
  eexists. split; [reflexivity|]. repeat split; vm_compute; reflexivity.
Qed.

(** * Further properties of the page *)

(** ** The extraction functions on arbitrary values *)

Lemma coalesce_absent_not (v : jsval) (b : result jsval) :
  nullish v = false → Ok v ?? b = Ok v.
Proof. intros H. unfold coalesce. simpl. by rewrite H. Qed.

(** X1: on any JavaScript value, [getStartTime] and [getEndTime] throw a
    TypeError exactly when their argument is [undefined] or [null], and
    return otherwise, whatever the members hold; [getMeetingUrl] returns on
    every value. *)
Theorem extraction_throws_iff_nullish (when conferencing : jsval) :
  (getStartTime when = Throw TypeError ↔ nullish when = true)
  ∧ (returns (getStartTime when) ↔ nullish when = false)
  ∧ (getEndTime when = Throw TypeError ↔ nullish when = true)
  ∧ (returns (getEndTime when) ↔ nullish when = false)
  ∧ returns (getMeetingUrl conferencing).
Proof.
  destruct (nullish when) eqn:Hnull.
  - assert (getStartTime when = Throw TypeError
            ∧ getEndTime when = Throw TypeError) as [Hs He].
    { by destruct when. }
    rewrite Hs, He. unfold returns.
    repeat split; try done; try (by intros [? ?]).
    apply getMeetingUrl_returns.
  - destruct (getStartTime_returns when Hnull) as [s Hs].
    destruct (getEndTime_returns when Hnull) as [e He].
    rewrite Hs, He. unfold returns.
    repeat split; try done; try (by eexists).
    apply getMeetingUrl_returns.
Qed.

(** X2: the extracted times depend on no member other than [start_time],
    [start], [time], [times], [end_time] and [end]: setting any other
    member, such as [date] or [dates], changes neither result. *)
Theorem extraction_ignores_other_members (m : gmap string jsval)
    (k : string) (x : jsval) :
  k ∉ ["start_time"; "start"; "time"; "times"; "end_time"; "end"] →
  getStartTime (JObj (<[k := x]> m)) = getStartTime (JObj m)
  ∧ getEndTime (JObj (<[k := x]> m)) = getEndTime (JObj m).
Proof.
  intros Hk. unfold getStartTime, getEndTime. cbn [member].
  by rewrite !(field_insert_ne k) by (intros ->; apply Hk; set_solver).
Qed.

Lemma extraction_ignores_other_members_witness :
  ("date" ∉ ["start_time"; "start"; "time"; "times"; "end_time"; "end"])
  ∧ getStartTime (JObj (<["date" := JStr "2025-03-14"]> ∅))
    = getStartTime (JObj ∅)
  ∧ getEndTime (JObj (<["date" := JStr "2025-03-14"]> ∅))
    = getEndTime (JObj ∅).
Proof.
  assert (H : "date" ∉ ["start_time"; "start"; "time"; "times";
                        "end_time"; "end"]).
  { rewrite !not_elem_of_cons. repeat split; try done. apply not_elem_of_nil. }
  split; [exact H|].
  exact (extraction_ignores_other_members ∅ "date" (JStr "2025-03-14") H).
Defined.

(** ** The rows of the list *)

Lemma links_of_bookingForm (id : jsval) (s1 s2 s3 : Z) (p1 p2 p3 : string)
    (url title who : jsval) :
  elements_by_tag "a"
    (bookingForm id (Formatted s1 p1) (Formatted s2 p2) (Formatted s3 p3)
       url title who)
  = if truthy url then [ joinAnchor url ] else [].
Proof.
  unfold bookingForm, joinLink, joinAnchor. simpl.
  by destruct (truthy url).
Qed.

Lemma rowOf_shown (e : NylasEvent.t) :
  shown e = true →
  formattable e = true →
  ∃ s t, startOf e = Some s ∧ endOf e = Some t
    ∧ rowOf e
      = Ok (bookingForm (JStr (NylasEvent.id e))
              (Formatted s "EEE, dd MMM") (Formatted s "hh:mm a")
              (Formatted t "hh:mm a")
              (string_or_null (meetingUrlOf e))
              (JStr (NylasEvent.title e)) (JStr (whoOf e))).
Proof.
  intros Hshown Hfmt. unfold rowOf, renderable, visibleRow.
  rewrite Hshown, Hfmt. cbn [negb orb].
  unfold shown in Hshown. apply andb_true_iff in Hshown as [Hs Ht].
  destruct (startOf e) as [s|]; [|done].
  destruct (endOf e) as [t|]; [|done].
  by exists s, t.
Qed.

(** X3: a [start_time] or [end_time] of 0 hides the event, also when a
    later member of the precedence order ([start], [time], [times], [end])
    holds a usable time: [??] keeps the 0 and the render guard rejects it. *)
Theorem zero_time_hides_event (lib : DateLib) (item : jsval)
    (e : NylasEvent.t) :
  is_NylasEvent item e →
  When.start_time (NylasEvent.when e) = Some 0
  ∨ When.end_time (NylasEvent.when e) = Some 0 →
  renderItem lib item = Ok (Expr JNull).
Proof.
  intros He Hzero. rewrite (renderItem_typed lib item e He).
  assert (Hshown : shown e = false).
  { unfold shown, startOf, endOf, start_precedence, end_precedence.
    destruct Hzero as [-> | ->]; simpl; [done|]. by rewrite andb_false_r. }
  unfold rowOf, renderable, visibleRow. by rewrite Hshown.
Qed.

Lemma zero_time_hides_event_witness :
  is_NylasEvent (NylasEvent_to_js shadowedBooking) shadowedBooking
  ∧ (When.start_time (NylasEvent.when shadowedBooking) = Some 0
     ∨ When.end_time (NylasEvent.when shadowedBooking) = Some 0)
  ∧ When.start (NylasEvent.when shadowedBooking) = Some 1700000000
  ∧ renderItem strictDates (NylasEvent_to_js shadowedBooking)
    = Ok (Expr JNull).
Proof.
  split; [apply NylasEvent_to_js_typed|].
  split; [by left|]. split; [reflexivity|].
  exact (zero_time_hides_event strictDates _ shadowedBooking
           (NylasEvent_to_js_typed shadowedBooking) (or_introl eq_refl)).
Defined.

(** X4: for an event with truthy start and end within the range of a
    [Date], the row holds the "Join Meeting" link exactly when the extracted
    meeting URL is a non-empty string, and then it holds one link, to that
    URL, opened in a new tab with [rel="noopener noreferrer"]. *)
Theorem join_link_iff_url (lib : DateLib) (item : jsval) (e : NylasEvent.t) :
  is_NylasEvent item e →
  shown e = true →
  formattable e = true →
  ∃ row, renderItem lib item = Ok row
    ∧ elements_by_tag "a" row
      = match meetingUrlOf e with
        | Some url =>
            if String.eqb url "" then [] else [ joinAnchor (JStr url) ]
        | None => []
        end.
Proof.
  intros He Hshown Hfmt. rewrite (renderItem_typed lib item e He).
  destruct (rowOf_shown e Hshown Hfmt) as (s & t & _ & _ & ->).
  eexists. split; [reflexivity|]. rewrite links_of_bookingForm.
  destruct (meetingUrlOf e) as [url|]; simpl; [|done].
  by destruct (String.eqb url "").
Qed.

Lemma join_link_iff_url_witness :
  is_NylasEvent (NylasEvent_to_js linkedBooking) linkedBooking
  ∧ shown linkedBooking = true
  ∧ formattable linkedBooking = true
  ∧ ∃ row, renderItem strictDates (NylasEvent_to_js linkedBooking) = Ok row
      ∧ elements_by_tag "a" row
        = [ joinAnchor (JStr "https://a.example") ].
Proof.
  split; [apply NylasEvent_to_js_typed|]. do 2 (split; [reflexivity|]).
  exact (join_link_iff_url strictDates _ linkedBooking
           (NylasEvent_to_js_typed linkedBooking) eq_refl eq_refl).
Defined.

(** X5: for an event with truthy start and end within the range of a
    [Date], an empty [details.url] hides the link even when the top-level
    [url] is set: [??] stops at the empty string, and [meetingUrl && ...]
    rejects it. *)
Theorem blank_details_url_hides_link (lib : DateLib) (item : jsval)
    (e : NylasEvent.t) (c : Conferencing.t) (d : Details.t) :
  is_NylasEvent item e →
  shown e = true →
  formattable e = true →
  NylasEvent.conferencing e = Some c →
  Conferencing.details c = Some d →
  Details.url d = Some "" →
  ∃ row,
    renderItem lib item = Ok row
    ∧ cancel_target row = Some (JStr (NylasEvent.id e))
    ∧ elements_by_tag "a" row = [].
Proof.
  intros He Hshown Hfmt Hc Hd Hurl. rewrite (renderItem_typed lib item e He).
  destruct (rowOf_shown e Hshown Hfmt) as (s & t & _ & _ & ->).
  eexists. split; [reflexivity|].
  split; [apply cancel_target_bookingForm|]. rewrite links_of_bookingForm.
  unfold meetingUrlOf, url_precedence. by rewrite Hc; simpl; rewrite Hd; simpl;
    rewrite Hurl.
Qed.

Lemma blank_details_url_hides_link_witness :
  is_NylasEvent (NylasEvent_to_js blankLinkBooking) blankLinkBooking
  ∧ shown blankLinkBooking = true
  ∧ formattable blankLinkBooking = true
  ∧ (Conferencing.url <$> NylasEvent.conferencing blankLinkBooking)
    = Some (Some "https://b.example")
  ∧ ∃ row,
      renderItem strictDates (NylasEvent_to_js blankLinkBooking) = Ok row
      ∧ cancel_target row = Some (JStr "evt_blank_link")
      ∧ elements_by_tag "a" row = [].
Proof.
  split; [apply NylasEvent_to_js_typed|]. do 3 (split; [reflexivity|]).
  exact (blank_details_url_hides_link strictDates _ blankLinkBooking _ _
           (NylasEvent_to_js_typed blankLinkBooking)
           eq_refl eq_refl eq_refl eq_refl eq_refl).
Defined.

(** X6: for an event with truthy start and end within the range of a
    [Date], the row is a form keyed by the event's id whose action is
    [cancelMeetingAction] and whose hidden [eventId] is that id; its
    paragraphs show the start formatted as a day, the start and the end
    formatted as times, and "You and" followed by the name of the first
    participant, or by the word "participant" when there is no participant
    or that name is empty; its heading shows the title; its submit button
    reads "Cancel Event". *)
Theorem row_shows_event (lib : DateLib) (item : jsval) (e : NylasEvent.t) :
  is_NylasEvent item e →
  shown e = true →
  formattable e = true →
  ∃ when s t row,
    member item "when" = Ok when
    ∧ getStartTime when = Ok (JNum s)
    ∧ getEndTime when = Ok (JNum t)
    ∧ renderItem lib item = Ok row
    ∧ (∃ children,
         row = Element "form"
                 [ ("key", PExpr (JStr (NylasEvent.id e)));
                   ("action", PAction "cancelMeetingAction") ]
                 children)
    ∧ omap (hidden_input "eventId") (children_of row)
      = [ JStr (NylasEvent.id e) ]
    ∧ children_of <$> elements_by_tag "p" row
      = [ [ Formatted s "EEE, dd MMM" ];
          [ Formatted s "hh:mm a"; Text " -"; Expr (JStr " ");
            Formatted t "hh:mm a" ];
          [ Text "You and ";
            Expr (JStr match NylasEvent.participants e with
                       | [] => "participant"
                       | p :: _ =>
                           if String.eqb (Participant.name p) ""
                           then "participant" else Participant.name p
                       end) ] ]
    ∧ children_of <$> elements_by_tag "h2" row
      = [ [ Expr (JStr (NylasEvent.title e)) ] ]
    ∧ (λ button, attribute "text" (props_of button))
        <$> elements_by_tag "SubmitButton" row
      = [ Some (PStr "Cancel Event") ].
Proof.
  intros He Hshown Hfmt. rewrite (renderItem_typed lib item e He).
  destruct (rowOf_shown e Hshown Hfmt) as (s & t & Hs & Ht & ->).
  destruct He as (m & -> & _ & Hw & _).
  exists (field m "when"), s, t. eexists. split; [reflexivity|].
  rewrite (getStartTime_typed _ _ Hw), (getEndTime_typed _ _ Hw).
  unfold startOf in Hs. unfold endOf in Ht. rewrite Hs, Ht.
  do 3 (split; [reflexivity|]).
  split; [by eexists|]. split; [reflexivity|].
  unfold bookingForm, joinLink, whoOf.
  destruct (truthy (string_or_null (meetingUrlOf e)));
    repeat split; reflexivity.
Qed.

Lemma row_shows_event_witness :
  is_NylasEvent (NylasEvent_to_js blankLinkBooking) blankLinkBooking
  ∧ shown blankLinkBooking = true
  ∧ formattable blankLinkBooking = true
  ∧ ∃ row,
      renderItem strictDates (NylasEvent_to_js blankLinkBooking) = Ok row
      ∧ omap (hidden_input "eventId") (children_of row)
        = [ JStr "evt_blank_link" ]
      ∧ children_of <$> elements_by_tag "p" row
        = [ [ Formatted 86400 "EEE, dd MMM" ];
            [ Formatted 86400 "hh:mm a"; Text " -"; Expr (JStr " ");
              Formatted 90000 "hh:mm a" ];
            [ Text "You and "; Expr (JStr "participant") ] ]
      ∧ children_of <$> elements_by_tag "h2" row = [ [ Expr (JStr "Sync") ] ].
Proof.
  split; [apply NylasEvent_to_js_typed|]. do 2 (split; [reflexivity|]).
  destruct (row_shows_event strictDates _ blankLinkBooking
              (NylasEvent_to_js_typed blankLinkBooking) eq_refl eq_refl)
    as (when & s & t & row & Hw & Hs & Ht & Hrow & _ & Hid & Hp & Hh & _).
  injection Hw as <-.
  vm_compute in Hs, Ht. injection Hs as <-. injection Ht as <-.
  exists row. by repeat split.
Defined.

(** ** The page as a whole *)

Lemma all_skipped_no_rows (events : list NylasEvent.t) :
  Forall (λ e, shown e = false) events →
  filter (λ row, is_null_row row = false) (visibleRow <$> events) = [].
Proof.
  induction 1 as [|e events He _ IH]; [done|].
  rewrite fmap_cons, filter_cons, is_null_row_visibleRow, He. simpl.
  exact IH.
Qed.

(** X7: when every event with a truthy start and end has them within the
    range of a [Date], the page shows the empty state exactly when no event
    was fetched.  With at least one event it shows the bookings card, with
    one row per event; when every event is skipped the card is shown with no
    visible row, not the empty state. *)
Theorem empty_state_iff_no_events (lib : DateLib) (data : list jsval)
    (events : list NylasEvent.t) :
  Forall2 is_NylasEvent data events →
  Forall (λ e, renderable e = true) events →
  ∃ page,
    renderPage lib data = Ok page
    ∧ (page = Element "Fragment" [] [ emptyState ] ↔ data = [])
    ∧ (data ≠ [] →
       ∃ rows, page = Element "Fragment" [] [ bookingsCard rows ]
         ∧ length rows = length data)
    ∧ (Forall (λ e, shown e = false) events → rendered_rows page = []).
Proof.
  intros Hall Hok. rewrite (renderPage_typed lib data events Hall Hok).
  eexists. split; [reflexivity|].
  pose proof (Forall2_length _ _ _ Hall) as Hlen.
  destruct events as [|e events].
  - destruct data; [|done]. simpl. repeat split; done.
  - destruct data as [|item data]; [done|]. cbn [length Nat.eqb].
    split; [split; [|done]|split].
    + by intros [=].
    + intros _. eexists. split; [reflexivity|].
      by rewrite length_fmap.
    + intros Hskipped. rewrite rendered_rows_bookingsCard.
      by apply all_skipped_no_rows.
Qed.

Lemma empty_state_iff_no_events_witness :
  Forall2 is_NylasEvent [ NylasEvent_to_js allDayBooking ] [ allDayBooking ]
  ∧ Forall (λ e, renderable e = true) [ allDayBooking ]
  ∧ ∃ page,
      renderPage strictDates [ NylasEvent_to_js allDayBooking ] = Ok page
      ∧ (page = Element "Fragment" [] [ emptyState ]
         ↔ [ NylasEvent_to_js allDayBooking ] = [])
      ∧ ([ NylasEvent_to_js allDayBooking ] ≠ [] →
         ∃ rows, page = Element "Fragment" [] [ bookingsCard rows ]
           ∧ length rows = length [ NylasEvent_to_js allDayBooking ])
      ∧ (Forall (λ e, shown e = false) [ allDayBooking ] →
         rendered_rows page = []).
Proof.
  assert (Htyped : Forall2 is_NylasEvent [ NylasEvent_to_js allDayBooking ]
                     [ allDayBooking ]).
  { repeat constructor. apply NylasEvent_to_js_typed. }
  assert (Hok : Forall (λ e, renderable e = true) [ allDayBooking ]).
  { by repeat constructor. }
  split; [exact Htyped|]. split; [exact Hok|].
  exact (empty_state_iff_no_events strictDates _ _ Htyped Hok).
Defined.

(** *** What can be thrown *)

Lemma only_TypeError_member (v : jsval) (name : string) :
  only_TypeError (member v name).
Proof. intros e. destruct v; simpl; congruence. Qed.


Lemma renderItem_timeless (lib : DateLib) (item : jsval) :
  timeless item = true → renderItem lib item = Throw TypeError.
Proof.
  unfold timeless, renderItem.
  destruct (member item "when") as [when|e] eqn:Hwhen; simpl.
  - intros Hnull. by destruct when.
  - intros _. by rewrite (only_TypeError_member _ _ _ Hwhen).
Qed.



(** With the sample booking before it, the error is the TypeError of the
    item without [when]. *)
Example timeless_event_sample :
  renderPage strictDates [ NylasEvent_to_js oldBooking; timelessEvent ]
  = Throw TypeError.
Proof. vm_compute. reflexivity. Qed.

(** ** The normalization on arbitrary values *)

Lemma normalizeParticipant_returns (p : jsval) :
  nullish p = false →
  ∃ q, normalizeParticipant p = Ok q ∧ only_name q.
Proof.
  intros Hp. unfold normalizeParticipant.
  destruct (member_returns p "name" Hp) as [n ->].
  unfold coalesce. simpl. destruct (nullish n) eqn:Hn; simpl.
  - eexists. split; [reflexivity|]. by exists (JStr "").
  - eexists. split; [reflexivity|]. by exists n.
Qed.

Lemma normalizeParticipant_throws (p : jsval) :
  nullish p = true → normalizeParticipant p = Throw TypeError.
Proof. by destruct p. Qed.

(** An object with the single member [name] is left as it is. *)
Lemma normalizeParticipant_only_name (q : jsval) :
  only_name q → normalizeParticipant q = Ok q.
Proof.
  intros (n & -> & Hn). unfold normalizeParticipant. cbn [member].
  rewrite field_insert_eq. unfold coalesce. simpl. by rewrite Hn.
Qed.

Lemma normalizeParticipants_returns (ps : list jsval) :
  forallb (λ p, negb (nullish p)) ps = true →
  ∃ qs, rmapM normalizeParticipant ps = Ok qs ∧ Forall only_name qs.
Proof.
  induction ps as [|p ps IH]; simpl.
  - intros _. by exists [].
  - rewrite andb_true_iff, negb_true_iff. intros [Hp Hps].
    destruct (normalizeParticipant_returns p Hp) as (q & -> & Hq).
    destruct (IH Hps) as (qs & -> & Hqs). simpl.
    exists (q :: qs). split; [done | by constructor].
Qed.

Lemma normalizeParticipants_throws (ps : list jsval) :
  forallb (λ p, negb (nullish p)) ps = false →
  rmapM normalizeParticipant ps = Throw TypeError.
Proof.
  induction ps as [|p ps IH]; simpl; [done|].
  destruct (nullish p) eqn:Hp; simpl.
  - intros _. by rewrite (normalizeParticipant_throws p Hp).
  - intros Hps. destruct (normalizeParticipant_returns p Hp) as (q & -> & _).
    simpl. by rewrite (IH Hps).
Qed.

Lemma normalizeParticipants_fixed (qs : list jsval) :
  Forall only_name qs → rmapM normalizeParticipant qs = Ok qs.
Proof.
  intros H. apply rmapM_Ok.
  induction H; constructor; auto using normalizeParticipant_only_name.
Qed.

(** The title and the participants [normalizeEvent] writes. *)
Lemma normalizeEvent_Ok_inv (event out : jsval) :
  normalizeEvent event = Ok out →
  ∃ title ps,
    out = JObj (<["participants" := JArr ps]>
                (<["title" := title]> (spread event)))
    ∧ nullish title = false
    ∧ Forall only_name ps
    ∧ normalizable event = true.
Proof.
  unfold normalizeEvent, normalizable.
  destruct (nullish event) eqn:Hev; [by destruct event|].
  destruct (member_returns event "title" Hev) as [t ->].
  destruct (member_returns event "participants" Hev) as [p ->].
  cbn [rbind negb andb]. unfold coalesce at 1. cbn [rbind].
  set (title := if nullish t then _ else _).
  assert (∃ title', title = Ok title' ∧ nullish title' = false)
    as (title' & -> & Htitle).
  { subst title. destruct (nullish t) eqn:Ht; by eexists. }
  cbn [rbind]. unfold opt_array_map.
  destruct (nullish p) eqn:Hp.
  - cbn. intros [= <-]. exists title', []. repeat split; try done.
    by destruct p.
  - destruct p as [| | | | |ps|]; try done. cbn [array_map].
    destruct (forallb (λ p, negb (nullish p)) ps) eqn:Hps.
    + destruct (normalizeParticipants_returns ps Hps) as (qs & -> & Hqs).
      cbn. intros [= <-]. by exists title', qs.
    + by rewrite (normalizeParticipants_throws ps Hps).
Qed.

Lemma normalizeEvent_throws (event : jsval) :
  normalizable event = false → normalizeEvent event = Throw TypeError.
Proof.
  unfold normalizeEvent, normalizable.
  destruct (nullish event) eqn:Hev; [by destruct event|].
  destruct (member_returns event "title" Hev) as [t ->].
  destruct (member_returns event "participants" Hev) as [p ->].
  cbn [rbind negb andb]. unfold coalesce at 1. cbn [rbind].
  set (title := if nullish t then _ else _).
  assert (∃ title', title = Ok title') as (title' & ->).
  { subst title. destruct (nullish t); by eexists. }
  cbn [rbind]. unfold opt_array_map.
  destruct p as [| | | | |ps|]; try done. cbn [nullish array_map].
  intros Hps. by rewrite (normalizeParticipants_throws ps Hps).
Qed.

Lemma normalizeEvent_returns (event : jsval) :
  normalizable event = true → returns (normalizeEvent event).
Proof.
  intros Hn. destruct (normalizeEvent event) as [out|e] eqn:Hout;
    [by eexists|].
  exfalso. destruct (nullish event) eqn:Hev.
  { unfold normalizable in Hn. by rewrite Hev in Hn. }
  revert Hout. unfold normalizeEvent.
  destruct (member_returns event "title" Hev) as [t ->].
  unfold normalizable in Hn. rewrite Hev in Hn.
  destruct (member_returns event "participants" Hev) as [p Hp].
  rewrite Hp in Hn |- *. cbn [rbind negb andb] in Hn |- *.
  unfold coalesce at 1. cbn [rbind].
  destruct (nullish t); cbn [rbind]; unfold opt_array_map;
    (destruct p as [| | | | |ps|]; try done; cbn [nullish array_map];
     destruct (normalizeParticipants_returns ps Hn) as (qs & -> & _);
     done).
Qed.

(** X9: [normalizeEvent] returns exactly on the values that are not
    [undefined] or [null] and whose [participants] is absent or an array
    without [undefined] or [null] elements; on every other value (a
    [participants] that is not an array, a [null] participant) it throws a
    TypeError. *)
Theorem normalizeEvent_returns_iff (event : jsval) :
  (returns (normalizeEvent event) ↔ normalizable event = true)
  ∧ (normalizeEvent event = Throw TypeError ↔ normalizable event = false).
Proof.
  destruct (normalizable event) eqn:Hn.
  - destruct (normalizeEvent_returns event Hn) as [out Hout].
    rewrite Hout. unfold returns. repeat split; try done. by eexists.
  - rewrite (normalizeEvent_throws event Hn). unfold returns.
    repeat split; try done. by intros [? ?].
Qed.

(** X10: whatever the vendor sent, an event that [normalizeEvent] returns
    has a [title] that is set and a [participants] array whose elements are
    objects with the single member [name], which is set: every other member
    of a participant (an e-mail, a status) is dropped. *)
Theorem normalizeEvent_shape (event out : jsval) :
  normalizeEvent event = Ok out →
  ∃ m ps,
    out = JObj m
    ∧ nullish (field m "title") = false
    ∧ field m "participants" = JArr ps
    ∧ Forall only_name ps.
Proof.
  intros Hout.
  apply normalizeEvent_Ok_inv in Hout as (title & ps & -> & Ht & Hps & _).
  eexists. exists ps. split; [reflexivity|].
  rewrite field_insert_ne, !field_insert_eq by done. done.
Qed.

Lemma normalizeEvent_shape_witness :
  ∃ out,
    normalizeEvent richVendorEvent = Ok out
    ∧ ∃ m ps,
        out = JObj m
        ∧ nullish (field m "title") = false
        ∧ field m "participants" = JArr ps
        ∧ Forall only_name ps.
Proof.
  eexists. split; [vm_compute; reflexivity|].
  apply (normalizeEvent_shape richVendorEvent). vm_compute. reflexivity.
Defined.

(** The e-mail of the sample participant does not survive. *)
Example normalizeEvent_drops_email :
  ∃ m, normalizeEvent richVendorEvent = Ok (JObj m)
    ∧ field m "participants" = JArr [ JObj (<["name" := JStr "Ana"]> ∅) ].
Proof. eexists. split; [reflexivity|]. vm_compute. reflexivity. Qed.

(** X11: normalizing twice is normalizing once: an event that
    [normalizeEvent] returns is returned unchanged when it is normalized
    again. *)
Theorem normalizeEvent_idempotent (event out : jsval) :
  normalizeEvent event = Ok out → normalizeEvent out = Ok out.
Proof.
  intros Hout.
  apply normalizeEvent_Ok_inv in Hout as (title & ps & -> & Ht & Hps & _).
  set (m := <["participants" := JArr ps]> (<["title" := title]> _)).
  assert (Hmt : m !! "title" = Some title).
  { subst m. rewrite lookup_insert_ne by done. apply lookup_insert_eq. }
  assert (Hmp : m !! "participants" = Some (JArr ps)).
  { subst m. apply lookup_insert_eq. }
  unfold normalizeEvent. cbn [spread member]. unfold field.
  rewrite Hmt, Hmp. cbn [from_option id rbind].
  rewrite (coalesce_absent_not title) by done. cbn [rbind].
  unfold opt_array_map. cbn [nullish array_map].
  rewrite (normalizeParticipants_fixed ps Hps). cbn.
  by rewrite (insert_id m "title" title Hmt), (insert_id m _ _ Hmp).
Qed.

Lemma normalizeEvent_idempotent_witness :
  ∃ out,
    normalizeEvent richVendorEvent = Ok out ∧ normalizeEvent out = Ok out.
Proof.
  eexists. split; [vm_compute; reflexivity|].
  apply (normalizeEvent_idempotent richVendorEvent). vm_compute. reflexivity.
Defined.

(** ** Normalization and rendering together *)

Lemma or_else_returns (a b : result jsval) :
  returns a → returns b → returns (or_else a b).
Proof.
  intros [x ->] Hb. unfold or_else. simpl. destruct (truthy x); [|done].
  by eexists.
Qed.

(** The callback of [data.map] on an object whose [when] and [participants]
    are set, whatever they and the other members hold: past the guard it
    fails only where the formatting of a time fails. *)
Lemma renderItem_past_guard (lib : DateLib) (m : gmap string jsval) :
  nullish (field m "when") = false →
  nullish (field m "participants") = false →
  ∃ startTime endTime,
    getStartTime (field m "when") = Ok startTime
    ∧ getEndTime (field m "when") = Ok endTime
    ∧ (truthy startTime && truthy endTime = false →
       renderItem lib (JObj m) = Ok (Expr JNull))
    ∧ (truthy startTime && truthy endTime = true →
       match formatTimes lib startTime endTime with
       | Ok _ => returns (renderItem lib (JObj m))
       | Throw e => renderItem lib (JObj m) = Throw e
       end).
Proof.
  intros Hw Hps. unfold renderItem. cbn [member rbind].
  destruct (getStartTime_returns _ Hw) as [s Hs].
  destruct (getEndTime_returns _ Hw) as [t Ht].
  exists s, t. rewrite Hs, Ht. do 2 (split; [done|]).
  destruct (getMeetingUrl_returns (field m "conferencing")) as [u ->].
  cbn [rbind]. rewrite <- negb_andb.
  destruct (truthy s && truthy t); cbn [negb]; split; try done.
  intros _. unfold formatTimes.
  destruct (formatUnixTime lib s "EEE, dd MMM") as [day|e]; [|done].
  destruct (formatUnixTime lib s "hh:mm a") as [from|e]; [|done].
  destruct (formatUnixTime lib t "hh:mm a") as [to|e]; [|done].
  cbn [rbind].
  apply rbind_returns; [|intros who; by eexists].
  apply or_else_returns; [|by eexists].
  apply rbind_returns; [by apply index_returns|]. intros first.
  apply opt_member_returns.
Qed.

(** X12: after normalization, rendering an event fails only for want of a
    [when] or where the formatting of its times fails; reading its id, its
    title and its first participant never throws.  For every vendor object
    that [normalizeEvent] accepts: without a [when] the callback throws a
    TypeError on the normalized event; with one, it returns [null] when the
    start or the end is falsy, and otherwise returns when the three
    formatting calls return and throws what the first failing one throws. *)
Theorem normalized_event_renders (lib : DateLib) (m : gmap string jsval)
    (out : jsval) :
  normalizeEvent (JObj m) = Ok out →
  (nullish (field m "when") = true → renderItem lib out = Throw TypeError)
  ∧ (nullish (field m "when") = false →
     ∃ startTime endTime,
       getStartTime (field m "when") = Ok startTime
       ∧ getEndTime (field m "when") = Ok endTime
       ∧ (truthy startTime && truthy endTime = false →
          renderItem lib out = Ok (Expr JNull))
       ∧ (truthy startTime && truthy endTime = true →
          match formatTimes lib startTime endTime with
          | Ok _ => returns (renderItem lib out)
          | Throw e => renderItem lib out = Throw e
          end)).
Proof.
  intros Hout.
  apply normalizeEvent_Ok_inv in Hout as (title & ps & -> & _ & _ & _).
  cbn [spread].
  set (m' := <["participants" := JArr ps]> (<["title" := title]> m)).
  assert (Hwhen : field m' "when" = field m "when").
  { subst m'. by rewrite !field_insert_ne. }
  assert (Hps : field m' "participants" = JArr ps).
  { subst m'. by rewrite field_insert_eq. }
  split.
  - intros Hw. apply renderItem_timeless. unfold timeless. cbn [member].
    by rewrite Hwhen.
  - intros Hw. rewrite <- Hwhen. apply renderItem_past_guard.
    + by rewrite Hwhen.
    + by rewrite Hps.
Qed.

Lemma normalized_event_renders_witness :
  ∃ m out,
    normalizeEvent (JObj m) = Ok out
    ∧ (nullish (field m "when") = true →
       renderItem strictDates out = Throw TypeError)
    ∧ (nullish (field m "when") = false →
       ∃ startTime endTime,
         getStartTime (field m "when") = Ok startTime
         ∧ getEndTime (field m "when") = Ok endTime
         ∧ (truthy startTime && truthy endTime = false →
            renderItem strictDates out = Ok (Expr JNull))
         ∧ (truthy startTime && truthy endTime = true →
            match formatTimes strictDates startTime endTime with
            | Ok _ => returns (renderItem strictDates out)
            | Throw e => renderItem strictDates out = Throw e
            end)).
Proof.
  eexists. eexists.
  split; [exact (eq_refl : normalizeEvent richVendorEvent = Ok _)|].
  apply normalized_event_renders. reflexivity.
Defined.

(** X13: a vendor event that comes without [participants] and has truthy
    times within the range of a [Date] cannot be rendered as it is, since
    [item.participants[0]] throws a TypeError; its normalized form can. *)
Theorem unnormalized_event_throws (lib : DateLib) (event : jsval)
    (ve : VendorEvent.t) :
  is_VendorEvent event ve →
  VendorEvent.participants ve = None →
  shown (normalized ve) = true →
  formattable (normalized ve) = true →
  renderItem lib event = Throw TypeError
  ∧ ∃ out row,
      normalizeEvent event = Ok out
      ∧ renderItem lib out = Ok row
      ∧ cancel_target row = Some (JStr (VendorEvent.id ve)).
Proof.
  intros Hve Hnone Hshown Hfmt. split.
  - destruct Hve as (m & -> & _ & Hw & _ & Hps & Hc).
    rewrite Hnone in Hps. simpl in Hps.
    unfold renderItem. cbn [member rbind].
    rewrite (getStartTime_typed _ _ Hw), (getEndTime_typed _ _ Hw),
      (getMeetingUrl_typed _ _ Hc).
    cbn [rbind]. rewrite !truthy_number_or_null.
    unfold shown, formattable, startOf, endOf in Hshown, Hfmt.
    cbn [normalized NylasEvent.when] in Hshown, Hfmt.
    apply andb_true_iff in Hshown as [Hs Ht].
    apply andb_true_iff in Hfmt as [Hvs Hvt].
    rewrite Hs, Ht. cbn [negb orb rbind].
    destruct (first_present (start_precedence _)) as [s|]; [|done].
    destruct (first_present (end_precedence _)) as [t|]; [|done].
    cbn [number_or_null from_option in_range formatUnixTime] in Hvs, Hvt |- *.
    rewrite Hvs, Hvt. cbn [rbind].
    by destruct (field m "participants").
  - destruct (normalizeEvent_typed event ve Hve) as (out & Hout & _ & Htyped).
    exists out, (visibleRow (normalized ve)). split; [done|]. split.
    + rewrite (renderItem_typed lib out _ Htyped). apply rowOf_renderable.
      unfold renderable. by rewrite Hfmt, orb_true_r.
    + unfold visibleRow. rewrite Hshown. apply cancel_target_bookingForm.
Qed.

Lemma unnormalized_event_throws_witness :
  is_VendorEvent (VendorEvent_to_js bareVendorEvent) bareVendorEvent
  ∧ VendorEvent.participants bareVendorEvent = None
  ∧ shown (normalized bareVendorEvent) = true
  ∧ formattable (normalized bareVendorEvent) = true
  ∧ renderItem strictDates (VendorEvent_to_js bareVendorEvent)
    = Throw TypeError
  ∧ ∃ out row,
      normalizeEvent (VendorEvent_to_js bareVendorEvent) = Ok out
      ∧ renderItem strictDates out = Ok row
      ∧ cancel_target row = Some (JStr "evt_bare").
Proof.
  split; [apply VendorEvent_to_js_typed|].
  do 3 (split; [reflexivity|]).
  exact (unnormalized_event_throws strictDates _ bareVendorEvent
           (VendorEvent_to_js_typed bareVendorEvent)
           eq_refl eq_refl eq_refl).
Defined.

(** ** The external calls *)

Lemma getData_log (env : Env) (userId : jsval) (log : list Call) :
  ∃ calls,
    snd (getData userId env log) = (log ++ calls)%list
    ∧ getData_calls userId calls
    ∧ (returns (fst (getData userId env log)) → length calls = 2%nat).
Proof.
  unfold getData, mbind_M, call, lift, throw, getData_calls.
  assert (Hstop : ∀ e : exn,
            ∃ calls,
              (log ++ [CallFindUnique userId])%list = (log ++ calls)%list
              ∧ (calls = [CallFindUnique userId]
                 ∨ ∃ grantId grantEmail,
                     calls = [CallFindUnique userId;
                              CallEventsList grantId grantEmail]
                     ∧ truthy grantId = true ∧ truthy grantEmail = true)
              ∧ (returns (Throw e : result (list jsval)) →
                 length calls = 2%nat)).
  { intros e. exists [CallFindUnique userId].
    split; [done|]. split; [by left|]. by intros [? ?]. }
  destruct (prisma_user_findUnique env userId) as [userData|e]; cbn;
    [|apply Hstop].
  destruct (truthy userData); cbn; [|apply Hstop].
  destruct (member userData "grantId") as [grantId|e]; cbn; [|apply Hstop].
  destruct (truthy grantId) eqn:Hid; cbn; [|apply Hstop].
  destruct (member userData "grantEmail") as [grantEmail|e]; cbn;
    [|apply Hstop].
  destruct (truthy grantEmail) eqn:Hemail; cbn; [|apply Hstop].
  exists [CallFindUnique userId; CallEventsList grantId grantEmail].
  assert (Hlog : ∀ r : result (list jsval),
            snd (r, ((log ++ [CallFindUnique userId])
                       ++ [CallEventsList grantId grantEmail])%list)
            = (log ++ [CallFindUnique userId;
                       CallEventsList grantId grantEmail])%list).
  { intros r. simpl. by rewrite <- app_assoc. }
  split; [|split; [right; by exists grantId, grantEmail | done]].
  destruct (nylas_events_list env grantId grantEmail) as [response|];
    [|apply Hlog].
  destruct (member response "data"); apply Hlog.
Qed.

(** Closes a case in which [getData] stopped right after the lookup. *)
Ltac stopped_after_lookup userId :=
  exists [CallFindUnique userId];
  split; [done|]; split; [by left|]; by intros [? ?].

(** X14: whatever the database and the vendor answer, [getData] looks the
    user up exactly once, first, and calls the vendor at most once, only
    after the lookup and only with the grant id and e-mail of the record the
    lookup returned, both truthy; it returns events only after the vendor
    call. *)
Theorem getData_call_discipline (env : Env) (userId : jsval)
    (log : list Call) :
  ∃ calls,
    snd (getData userId env log) = (log ++ calls)%list
    ∧ (calls = [ CallFindUnique userId ]
       ∨ ∃ userData grantId grantEmail,
           prisma_user_findUnique env userId = Ok userData
           ∧ member userData "grantId" = Ok grantId
           ∧ member userData "grantEmail" = Ok grantEmail
           ∧ truthy grantId = true ∧ truthy grantEmail = true
           ∧ calls = [ CallFindUnique userId;
                       CallEventsList grantId grantEmail ])
    ∧ (returns (fst (getData userId env log)) → length calls = 2%nat).
Proof.
  unfold getData, mbind_M, call, lift, throw.
  destruct (prisma_user_findUnique env userId) as [userData|e] eqn:Hfind;
    cbn; [|stopped_after_lookup userId].
  destruct (truthy userData); cbn; [|stopped_after_lookup userId].
  destruct (member userData "grantId") as [grantId|e] eqn:Hgid; cbn;
    [|stopped_after_lookup userId].
  destruct (truthy grantId) eqn:Hid; cbn; [|stopped_after_lookup userId].
  destruct (member userData "grantEmail") as [grantEmail|e] eqn:Hgem; cbn;
    [|stopped_after_lookup userId].
  destruct (truthy grantEmail) eqn:Hemail; cbn;
    [|stopped_after_lookup userId].
  exists [CallFindUnique userId; CallEventsList grantId grantEmail].
  split; [|split; [right; by exists userData, grantId, grantEmail | done]].
  rewrite <- app_assoc.
  destruct (nylas_events_list env grantId grantEmail) as [response|];
    [|done].
  by destruct (member response "data").
Qed.

Lemma rmapM_normalizeEvent_returns (events : list jsval) :
  forallb normalizable events = true →
  returns (rmapM normalizeEvent events).
Proof.
  induction events as [|event events IH]; simpl; [by eexists|].
  rewrite andb_true_iff. intros [Hev Hevs].
  destruct (normalizeEvent_returns event Hev) as [out ->].
  destruct (IH Hevs) as [outs ->]. by eexists.
Qed.

Lemma rmapM_normalizeEvent_throws (events : list jsval) :
  forallb normalizable events = false →
  rmapM normalizeEvent events = Throw TypeError.
Proof.
  induction events as [|event events IH]; simpl; [done|].
  destruct (normalizable event) eqn:Hev; simpl.
  - intros Hevs. destruct (normalizeEvent_returns event Hev) as [out ->].
    simpl. by rewrite (IH Hevs).
  - intros _. by rewrite (normalizeEvent_throws event Hev).
Qed.

Lemma fetchEvents_acceptable (env : Env) (grantId grantEmail response : jsval) :
  nylas_events_list env grantId grantEmail = Ok response →
  (acceptable response = true → returns (fetchEvents env grantId grantEmail))
  ∧ (acceptable response = false →
     fetchEvents env grantId grantEmail = Throw TypeError).
Proof.
  intros Hr. unfold fetchEvents, acceptable. rewrite Hr. cbn [rbind].
  destruct (member response "data") as [d|e] eqn:Hd; cbn [rbind].
  - destruct d as [| | | | |events|]; try (split; [done|by intros _]).
    cbn [array_map].
    split; [apply rmapM_normalizeEvent_returns
           | apply rmapM_normalizeEvent_throws].
  - split; [done|]. intros _. by rewrite (only_TypeError_member _ _ _ Hd).
Qed.

(** X15: once the guards have passed and the vendor has answered, [getData]
    returns exactly when the answer's [data] is an array of events that
    [normalizeEvent] accepts; otherwise (no [data], a [data] that is not an
    array, one [null] event) it throws a TypeError and returns no event at
    all. *)
Theorem getData_returns_iff_acceptable (env : Env) (userId : jsval)
    (log : list Call) (v : jsval) (u : UserData.t) (response : jsval) :
  let grantId := string_or_null (UserData.grantId u) in
  let grantEmail := string_or_null (UserData.grantEmail u) in
  prisma_user_findUnique env userId = Ok v →
  is_UserData v u →
  blank (UserData.grantId u) = false →
  blank (UserData.grantEmail u) = false →
  nylas_events_list env grantId grantEmail = Ok response →
  (returns (fst (getData userId env log)) ↔ acceptable response = true)
  ∧ (fst (getData userId env log) = Throw TypeError
     ↔ acceptable response = false).
Proof.
  intros grantId grantEmail Hfind Hu Hid Hemail Hr.
  rewrite (getData_typed env userId log v (Some u) Hfind Hu).
  simpl. rewrite Hid, Hemail. cbv zeta. cbn [fst option_bind mbind].
  fold grantId grantEmail.
  destruct (fetchEvents_acceptable env grantId grantEmail response Hr)
    as [Hyes Hno].
  destruct (acceptable response).
  - destruct (Hyes eq_refl) as [data ->]. unfold returns.
    repeat split; try done. by eexists.
  - rewrite (Hno eq_refl). unfold returns.
    repeat split; try done. by intros [? ?].
Qed.

Lemma getData_returns_iff_acceptable_witness :
  prisma_user_findUnique holeEnv (JStr "user_1")
  = Ok (UserData_to_js connectedUser)
  ∧ is_UserData (UserData_to_js connectedUser) connectedUser
  ∧ blank (UserData.grantId connectedUser) = false
  ∧ blank (UserData.grantEmail connectedUser) = false
  ∧ nylas_events_list holeEnv (JStr "grant_1") (JStr "ana@example.com")
    = Ok (JObj (<["data" :=
                   JArr [ VendorEvent_to_js oldVendorEvent; JNull ]]> ∅))
  ∧ fst (getData (JStr "user_1") holeEnv []) = Throw TypeError.
Proof.
  split; [reflexivity|]. split; [apply UserData_to_js_typed|].
  do 3 (split; [reflexivity|]).
  exact (proj2 (proj2
           (getData_returns_iff_acceptable holeEnv (JStr "user_1") []
              _ connectedUser _ eq_refl
              (UserData_to_js_typed connectedUser) eq_refl eq_refl eq_refl))
           eq_refl).
Defined.

(** X16: a rejection of the database lookup, or of the vendor call once the
    guards have passed, is the error [getData] throws, unchanged. *)
Theorem getData_rethrows (env : Env) (userId : jsval) (log : list Call)
    (e : exn) :
  prisma_user_findUnique env userId = Throw e
  ∨ (∃ v u,
       prisma_user_findUnique env userId = Ok v
       ∧ is_UserData v u
       ∧ blank (UserData.grantId u) = false
       ∧ blank (UserData.grantEmail u) = false
       ∧ nylas_events_list env (string_or_null (UserData.grantId u))
           (string_or_null (UserData.grantEmail u)) = Throw e) →
  fst (getData userId env log) = Throw e.
Proof.
  intros [Hfind | (v & u & Hfind & Hu & Hid & Hemail & Hr)].
  - by rewrite (getData_lookup_rejects env userId log e Hfind).
  - rewrite (getData_typed env userId log v (Some u) Hfind Hu).
    simpl. rewrite Hid, Hemail. cbv zeta. cbn [fst option_bind mbind].
    unfold fetchEvents. by rewrite Hr.
Qed.

Lemma getData_rethrows_witness :
  (prisma_user_findUnique offlineEnv (JStr "user_1")
   = Throw (Rejected "connection refused")
   ∨ (∃ v u,
        prisma_user_findUnique offlineEnv (JStr "user_1") = Ok v
        ∧ is_UserData v u
        ∧ blank (UserData.grantId u) = false
        ∧ blank (UserData.grantEmail u) = false
        ∧ nylas_events_list offlineEnv (string_or_null (UserData.grantId u))
            (string_or_null (UserData.grantEmail u))
          = Throw (Rejected "connection refused")))
  ∧ fst (getData (JStr "user_1") offlineEnv [])
    = Throw (Rejected "connection refused").
Proof.
  split; [by left|].
  exact (getData_rethrows offlineEnv (JStr "user_1") [] _
           (or_introl eq_refl)).
Defined.

(** X17: whatever the session, the database and the vendor answer,
    [MeetingsPage] asks for the session first and exactly once, then looks
    the user up at most once, then calls the vendor at most once and only
    with a truthy grant id and e-mail; it returns a page only after all
    three calls. *)
Theorem MeetingsPage_call_discipline (lib : DateLib) (env : Env)
    (log : list Call) :
  ∃ calls,
    snd (MeetingsPage lib env log) = (log ++ calls)%list
    ∧ MeetingsPage_calls calls
    ∧ (returns (fst (MeetingsPage lib env log)) → length calls = 3%nat).
Proof.
  unfold MeetingsPage, mbind_M, call, lift, MeetingsPage_calls.
  assert (Hstop : ∀ e : exn,
            ∃ calls,
              (log ++ [CallAuth])%list = (log ++ calls)%list
              ∧ (calls = [CallAuth]
                 ∨ ∃ userId rest,
                     calls = CallAuth :: rest ∧ getData_calls userId rest)
              ∧ (returns (Throw e : result jsx) → length calls = 3%nat)).
  { intros e. exists [CallAuth].
    split; [done|]. split; [by left|]. by intros [? ?]. }
  destruct (auth env) as [session|e]; [|apply Hstop].
  destruct (rbind (opt_member session "user") _) as [userId|e];
    [|apply Hstop].
  destruct (getData_log env userId (log ++ [CallAuth])%list)
    as (rest & Hlog & Hcalls & Hlen).
  destruct (getData userId env (log ++ [CallAuth])%list) as [[data|e] log'];
    cbn [fst snd] in Hlog, Hlen |- *; subst log'.
  - exists (CallAuth :: rest). split; [by rewrite <- app_assoc|].
    split; [right; by exists userId, rest|].
    intros _. simpl. f_equal. apply Hlen. by eexists.
  - exists (CallAuth :: rest). split; [by rewrite <- app_assoc|].
    split; [right; by exists userId, rest|]. by intros [? ?].
Qed.

(** X18: the page has no sign-in guard of its own: when there is no session
    (or a session without a user), the database is still queried, with an
    [undefined] user id, and what happens next is up to [getData]. *)
Theorem anonymous_visitor_is_looked_up (lib : DateLib) (env : Env)
    (log : list Call) (session : jsval) :
  auth env = Ok session →
  nullish session = true
  ∨ (∃ m, session = JObj m ∧ nullish (field m "user") = true) →
  MeetingsPage lib env log
  = (let '(outcome, log') := getData JUndef env (log ++ [CallAuth])%list in
     (rbind outcome (renderPage lib), log'))
  ∧ ∃ rest,
      snd (MeetingsPage lib env log)
      = (log ++ CallAuth :: CallFindUnique JUndef :: rest)%list.
Proof.
  intros Hauth Hsession.
  assert (Hid : (let! user := opt_member session "user" in
                 opt_member user "id") = Ok JUndef).
  { destruct Hsession as [Hnull | (m & -> & Hnull)].
    - by rewrite (opt_member_absent _ _ Hnull).
    - unfold opt_member at 1. cbn [nullish member rbind].
      by rewrite (opt_member_absent _ _ Hnull). }
  assert (Hpage : MeetingsPage lib env log
                  = (let '(outcome, log') :=
                       getData JUndef env (log ++ [CallAuth])%list in
                     (rbind outcome (renderPage lib), log'))).
  { unfold MeetingsPage, mbind_M, call, lift. rewrite Hauth, Hid.
    by destruct (getData JUndef env (log ++ [CallAuth])%list) as [[data|e] log']. }
  split; [exact Hpage|]. rewrite Hpage.
  destruct (getData_log env JUndef (log ++ [CallAuth])%list)
    as (calls & Hlog & Hcalls & _).
  destruct (getData JUndef env (log ++ [CallAuth])%list) as [outcome log'].
  cbn [snd] in Hlog |- *. subst log'. rewrite <- app_assoc.
  destruct Hcalls as [-> | (g & e & -> & _)]; eexists; reflexivity.
Qed.

Lemma anonymous_visitor_is_looked_up_witness :
  auth anonymousEnv = Ok JNull
  ∧ (nullish JNull = true
     ∨ (∃ m, JNull = JObj m ∧ nullish (field m "user") = true))
  ∧ MeetingsPage strictDates anonymousEnv []
    = (Throw (Error "User not found"), [CallAuth; CallFindUnique JUndef]).
Proof.
  split; [reflexivity|]. split; [by left|].
  exact (proj1 (anonymous_visitor_is_looked_up strictDates anonymousEnv [] JNull
                  eq_refl (or_introl eq_refl))).
Defined.
